(** * TheAltText: alt-text scoring and the bounded competitor crawl

    A shallow embedding of [backend/app/services/competitor_analysis.py]
    and of the image checks of [backend/app/services/wcag_checker.py].

    Conventions of the embedding.
    - A Python [str] is a Rocq [string] read as ASCII text: [len] is
      [String.length], [lower]/[upper] change the letters a-z/A-Z only and
      [\w] is a letter, a digit or the underscore.
    - A Python [float] is an exact rational of [Q]; [round(x, 1)] rounds to
      the nearest tenth, ties to the even tenth.
    - Counters and lengths are [nat], the page limit is a Python [int], [Z].
    - A [dict] of attributes is a [gmap string string], the visited [set]
      a [gset string].
    - An exception is the [Raise] constructor of [py_result]. *)

From Stdlib Require Import QArith Qround Lqa Lia Sorted.
From Stdlib Require Import Ascii String.
From stdpp Require Import gmap strings list pretty.

Open Scope string_scope.
Open Scope list_scope.
Open Scope nat_scope.

(** * Python strings *)

Module PyStr.

Definition code (c : ascii) : nat := nat_of_ascii c.

Definition is_upper (c : ascii) : bool := (65 <=? code c)%nat && (code c <=? 90)%nat.
Definition is_lower (c : ascii) : bool := (97 <=? code c)%nat && (code c <=? 122)%nat.
Definition is_digit (c : ascii) : bool := (48 <=? code c)%nat && (code c <=? 57)%nat.

(** [\w] of the [re] module on ASCII text. *)
Definition is_word (c : ascii) : bool :=
  is_upper c || is_lower c || is_digit c || Ascii.eqb c "_".

(** The characters [str.strip()] removes: tab, line feed, vertical tab, form
    feed, carriage return, the four separators 28 to 31 and the space. *)
Definition is_space (c : ascii) : bool :=
  ((9 <=? code c)%nat && (code c <=? 13)%nat)
  || ((28 <=? code c)%nat && (code c <=? 32)%nat).

Definition lower_char (c : ascii) : ascii :=
  if is_upper c then ascii_of_nat (code c + 32) else c.

Definition upper_char (c : ascii) : ascii :=
  if is_lower c then ascii_of_nat (code c - 32) else c.

Fixpoint map_chars (f : ascii -> ascii) (s : string) : string :=
  match s with
  | EmptyString => EmptyString
  | String c t => String (f c) (map_chars f t)
  end.

(** [s.lower()] and [s.upper()]. *)
Definition lower (s : string) : string := map_chars lower_char s.
Definition upper (s : string) : string := map_chars upper_char s.

Fixpoint lstrip (s : string) : string :=
  match s with
  | EmptyString => EmptyString
  | String c t => if is_space c then lstrip t else s
  end.

Fixpoint rstrip (s : string) : string :=
  match s with
  | EmptyString => EmptyString
  | String c t =>
      match rstrip t with
      | EmptyString => if is_space c then EmptyString else String c EmptyString
      | t' => String c t'
      end
  end.

(** [s.strip()]. *)
Definition strip (s : string) : string := rstrip (lstrip s).

(** [s.startswith(p)]. *)
Definition startswith (p s : string) : bool := String.prefix p s.

(** [sub in s]. *)
Fixpoint contains (sub s : string) : bool :=
  String.prefix sub s ||
  match s with
  | EmptyString => false
  | String _ t => contains sub t
  end.

(** [s[:n]]. *)
Definition take (n : nat) (s : string) : string := String.substring 0 n s.

(** [x in xs] for a list of strings. *)
Definition in_list (x : string) (xs : list string) : bool :=
  existsb (String.eqb x) xs.

(** Truth value of a string: [bool(s)]. *)
Definition truthy (s : string) : bool := negb (String.eqb s "").

End PyStr.

(** * Regular expressions, as [re.match] runs them on the two patterns *)

Module Regex.

Inductive re : Type :=
  | Void
  | Eps
  | Sat (p : ascii -> bool)
  | Seq (r1 r2 : re)
  | Alt (r1 r2 : re)
  | Star (r : re).

Fixpoint nullable (r : re) : bool :=
  match r with
  | Void => false
  | Eps => true
  | Sat _ => false
  | Seq r1 r2 => nullable r1 && nullable r2
  | Alt r1 r2 => nullable r1 || nullable r2
  | Star _ => true
  end.

(** Brzozowski derivative: what is left of [r] after reading [c]. *)
Fixpoint deriv (c : ascii) (r : re) : re :=
  match r with
  | Void => Void
  | Eps => Void
  | Sat p => if p c then Eps else Void
  | Seq r1 r2 =>
      if nullable r1
      then Alt (Seq (deriv c r1) r2) (deriv c r2)
      else Seq (deriv c r1) r2
  | Alt r1 r2 => Alt (deriv c r1) (deriv c r2)
  | Star r1 => Seq (deriv c r1) (Star r1)
  end.

Fixpoint fullmatch (r : re) (s : string) : bool :=
  match s with
  | EmptyString => nullable r
  | String c t => fullmatch (deriv c r) t
  end.

Definition Plus (r : re) : re := Seq r (Star r).

(** A literal under [re.IGNORECASE]; the patterns spell it in lower case. *)
Fixpoint ilit (s : string) : re :=
  match s with
  | EmptyString => Eps
  | String c t => Seq (Sat (fun x => Ascii.eqb (PyStr.lower_char x) c)) (ilit t)
  end.

Fixpoint alts (rs : list re) : re :=
  match rs with
  | [] => Void
  | r :: rs' => Alt r (alts rs')
  end.

Definition newline : ascii := ascii_of_nat 10.

(** [re.match("^" body "$", s)]: [$] holds at the end of [s] and just
    before a line feed that ends [s]. *)
Definition match_anchored (body : re) (s : string) : bool :=
  fullmatch (Seq body (Alt Eps (Sat (Ascii.eqb newline)))) s.

(** [^[\w-]+\.(e1|...|en)$] with [re.IGNORECASE]. *)
Definition filename_re (exts : list string) : re :=
  Seq (Plus (Sat (fun c => PyStr.is_word c || Ascii.eqb c "-")))
      (Seq (Sat (Ascii.eqb ".")) (alts (map ilit exts))).

End Regex.

(** * Results of fallible Python code *)

Inductive py_result (A : Type) : Type :=
  | Ok (a : A)
  | Raise (msg : string).

Arguments Ok {A} a.
Arguments Raise {A} msg.

#[export] Instance py_result_ret : MRet py_result := fun A a => Ok a.

#[export] Instance py_result_bind : MBind py_result := fun A B k m =>
  match m with
  | Ok a => k a
  | Raise e => Raise e
  end.

(** * Numbers *)

Module PyNum.

Definition of_nat (n : nat) : Q := inject_Z (Z.of_nat n).

(** Nearest integer, ties to the even one. *)
Definition round_half_even (x : Q) : Z :=
  let f := Qfloor x in
  match (x - inject_Z f ?= 1 # 2)%Q with
  | Lt => f
  | Gt => (f + 1)%Z
  | Eq => if Z.even f then f else (f + 1)%Z
  end.

(** [round(x, 1)]. *)
Definition round1 (x : Q) : Q := (inject_Z (round_half_even (x * 10)) / 10)%Q.

End PyNum.

(** * The parsed page, as the two services query it *)

Module Dom.

(** A tag: its attribute dict and its markup, [str(tag)]. *)
Record element : Type := {
  attrs : gmap string string;
  outer_html : string
}.

(** [tag.get(key)] and [tag.get(key, default)]. *)
Definition get (e : element) (key : string) : option string := attrs e !! key.
Definition get_or (e : element) (key dflt : string) : string :=
  default dflt (attrs e !! key).

Record svg_element : Type := {
  svg_tag : element;
  (** [svg.find("title")] found a child *)
  svg_title : bool
}.

Record figure_element : Type := {
  (** [figure.find("figcaption")] and [figure.find("img")] found a child *)
  figcaption : bool;
  figure_img : bool
}.

(** The answers of one [BeautifulSoup] object to the queries of the code. *)
Record soup : Type := {
  find_all_img : list element;
  (** [link["href"]] for the tags of [find_all("a", href=True)] *)
  find_all_a_href : list string;
  find_all_svg : list svg_element;
  find_all_figure : list figure_element;
  find_all_input_image : list element;
  find_all_area : list element;
  (** the [style] attributes of [find_all(style=True)] *)
  find_all_style : list string;
  (** a link to [#main-content] or with a class matching [skip] *)
  find_skip_link : bool;
  find_html : option element;
  find_meta_viewport : option element
}.

End Dom.

(** The HTTP client and the URL parser are outside the repository: the
    crawl is a function of what they answer. *)

Record parsed_url : Type := {
  scheme : string;
  netloc : string
}.

Record response : Type := {
  status_code : Z;
  (** [BeautifulSoup(response.text, "html.parser")] *)
  text : Dom.soup
}.

(** * [competitor_analysis.py] *)

Module CompetitorAnalysis.

Inductive quality : Type :=
  | unknown
  | missing
  | empty
  | decorative_correct
  | poor
  | acceptable
  | good.

#[export] Instance quality_eq_dec : EqDecision quality.
Proof. solve_decision. Defined.

Definition quality_name (q : quality) : string :=
  match q with
  | unknown => "unknown"
  | missing => "missing"
  | empty => "empty"
  | decorative_correct => "decorative_correct"
  | poor => "poor"
  | acceptable => "acceptable"
  | good => "good"
  end.

Record image_detail : Type := {
  src : string;
  alt : option string;
  is_decorative : bool;
  detail_quality : quality;
  issues : list string
}.

Module Page.
Record t : Type := {
  url : string;
  total_images : nat;
  images_with_alt : nat;
  images_missing_alt : nat;
  images_poor_alt : nat;
  images_good_alt : nat;
  image_details : list image_detail
}.
End Page.

Definition filename_exts : list string :=
  ["jpg"; "jpeg"; "png"; "gif"; "svg"; "webp"].

Definition generic : list string :=
  ["image"; "photo"; "picture"; "icon"; "logo"; "graphic"; "banner";
   "placeholder"; "untitled"; "img"; "pic"].

(** [if c: issues.append(msg)]. *)
Definition append_if (c : bool) (msg : string) (issues : list string) : list string :=
  if c then issues ++ [msg] else issues.

Definition _assess_alt_quality (alt src : string) : quality * list string :=
  let issues : list string := [] in
  if Regex.match_anchored (Regex.filename_re filename_exts) alt then
    (poor, issues ++ ["Alt text is a filename"])
  else if PyStr.in_list (PyStr.strip (PyStr.lower alt)) generic then
    (poor, issues ++ ["Generic/non-descriptive alt text"])
  else
    let issues :=
      append_if (existsb (fun p => PyStr.startswith p (PyStr.lower alt))
                         ["image of"; "picture of"; "photo of"])
                "Redundant prefix" issues in
    let issues :=
      append_if (String.length alt <? 10)%nat
                "Too short — may not be descriptive enough" issues in
    let issues :=
      append_if (250 <? String.length alt)%nat
                "Very long — consider using longdesc" issues in
    let issues :=
      append_if (String.eqb alt (PyStr.upper alt) && (5 <? String.length alt)%nat)
                "All uppercase" issues in
    match issues with
    | [] => (good, [])
    | _ =>
        if existsb (fun i => PyStr.contains "filename" i || PyStr.contains "Generic" i)
                   issues
        then (poor, issues)
        else (acceptable, issues)
    end.

(** One turn of [for img in images] in [_analyze_page]. *)
Definition analyze_img (results : Page.t) (img : Dom.element) : Page.t :=
  let src := Dom.get_or img "src" "" in
  let alt := Dom.get img "alt" in
  let role := Dom.get_or img "role" "" in
  let is_decorative :=
    PyStr.in_list role ["presentation"; "none"]
    || bool_decide (Dom.get img "aria-hidden" = Some "true") in
  let detail q iss :=
    {| src := PyStr.take 200 src; alt := alt; is_decorative := is_decorative;
       detail_quality := q; issues := iss |} in
  let put with_alt missing_alt poor_alt good_alt d :=
    {| Page.url := Page.url results;
       Page.total_images := Page.total_images results;
       Page.images_with_alt := Page.images_with_alt results + with_alt;
       Page.images_missing_alt := Page.images_missing_alt results + missing_alt;
       Page.images_poor_alt := Page.images_poor_alt results + poor_alt;
       Page.images_good_alt := Page.images_good_alt results + good_alt;
       Page.image_details := Page.image_details results ++ [d] |} in
  match alt with
  | None => put 0 1 0 0 (detail missing ["No alt attribute"])
  | Some a =>
      if String.eqb a "" then
        if is_decorative
        then put 0 0 0 1 (detail decorative_correct [])
        else put 0 0 1 0 (detail empty ["Empty alt on non-decorative image"])
      else
        let '(q, iss) := _assess_alt_quality a src in
        if decide (q = good)
        then put 1 0 0 1 (detail q iss)
        else put 1 0 1 0 (detail q iss)
  end.

Definition _analyze_page (soup : Dom.soup) (url : string) : Page.t :=
  let images := Dom.find_all_img soup in
  let results :=
    {| Page.url := url;
       Page.total_images := length images;
       Page.images_with_alt := 0;
       Page.images_missing_alt := 0;
       Page.images_poor_alt := 0;
       Page.images_good_alt := 0;
       Page.image_details := [] |} in
  fold_left analyze_img images results.

(** [sum(p[key] for p in pages_data)]. *)
Definition sum_of (key : Page.t -> nat) (pages_data : list Page.t) : nat :=
  foldr (fun p acc => key p + acc) 0 pages_data.

Module Gap.
Record t : Type := {
  type : string;
  severity : string;
  count : nat;
  percentage : option Q;
  description : string;
  pages : option (list string);
  your_opportunity : string
}.
End Gap.

Module Opportunity.
Record t : Type := {
  type : string;
  impact : string;
  description : string;
  action : string
}.
End Opportunity.

(** The dict [analyze_competitor] returns, without the two clock readings
    [processing_time_ms] and [analyzed_at]. *)
Module Site.
Record t : Type := {
  competitor_url : string;
  competitor_domain : string;
  pages_analyzed : nat;
  total_images : nat;
  images_with_alt : nat;
  images_missing_alt : nat;
  images_poor_alt : nat;
  images_good_alt : nat;
  compliance_score : Q;
  gaps : list Gap.t;
  opportunities : list Opportunity.t;
  page_details : list Page.t
}.
End Site.

(** [n / max(d, 1) * 100]. *)
Definition percent_of (n d : nat) : Q :=
  (PyNum.of_nat n / PyNum.of_nat (Nat.max d 1) * 100)%Q.

Definition _identify_gaps (pages_data : list Page.t) : list Gap.t :=
  let gaps : list Gap.t := [] in
  let total_missing := sum_of Page.images_missing_alt pages_data in
  let total_poor := sum_of Page.images_poor_alt pages_data in
  let total_images := sum_of Page.total_images pages_data in
  let gaps :=
    if (0 <? total_missing)%nat then
      gaps ++ [{| Gap.type := "missing_alt";
                  Gap.severity := "critical";
                  Gap.count := total_missing;
                  Gap.percentage := Some (PyNum.round1 (percent_of total_missing total_images));
                  Gap.description := pretty total_missing +:+ " images have no alt text at all";
                  Gap.pages := None;
                  Gap.your_opportunity :=
                    "You can outrank them by having 100% alt text coverage" |}]
    else gaps in
  let gaps :=
    if (0 <? total_poor)%nat then
      gaps ++ [{| Gap.type := "poor_quality";
                  Gap.severity := "major";
                  Gap.count := total_poor;
                  Gap.percentage := Some (PyNum.round1 (percent_of total_poor total_images));
                  Gap.description := pretty total_poor +:+ " images have poor/generic alt text";
                  Gap.pages := None;
                  Gap.your_opportunity :=
                    "Use descriptive, keyword-rich alt text to gain SEO advantage" |}]
    else gaps in
  let zero_alt_pages :=
    filter (fun p => Page.images_with_alt p = 0 ∧ 0 < Page.total_images p) pages_data in
  match zero_alt_pages with
  | [] => gaps
  | _ =>
      gaps ++ [{| Gap.type := "zero_coverage_pages";
                  Gap.severity := "critical";
                  Gap.count := length zero_alt_pages;
                  Gap.percentage := None;
                  Gap.description :=
                    pretty (length zero_alt_pages) +:+ " pages have zero alt text on any image";
                  Gap.pages := Some (Page.url <$> take 5 zero_alt_pages);
                  Gap.your_opportunity :=
                    "These pages are completely invisible to image search — easy to outrank" |}]
  end.

(** [good_ratio] of [_identify_opportunities]. *)
Definition good_ratio (pages_data : list Page.t) : Q :=
  percent_of (sum_of Page.images_good_alt pages_data)
             (sum_of Page.total_images pages_data).

(** The state of the crawl loop of [analyze_competitor]. The last two fields
    are a record of the run that the code does not keep: the argument of
    every [client.get], in order, and [len(to_visit)] at the start and after
    every [pop] and [append]. *)
Record crawl_state : Type := {
  to_visit : list string;
  visited : gset string;
  pages_data : list Page.t;
  requests : list string;
  queue_sizes : list nat
}.

(** [to_visit = ...], noting the new length. *)
Definition set_to_visit (q : list string) (st : crawl_state) : crawl_state :=
  {| to_visit := q; visited := visited st; pages_data := pages_data st;
     requests := requests st; queue_sizes := queue_sizes st ++ [length q] |}.

(** [visited.add(u)]. *)
Definition visited_add (u : string) (st : crawl_state) : crawl_state :=
  {| to_visit := to_visit st; visited := {[u]} ∪ visited st;
     pages_data := pages_data st; requests := requests st;
     queue_sizes := queue_sizes st |}.

(** Noting the request of [client.get(u)]. *)
Definition note_request (u : string) (st : crawl_state) : crawl_state :=
  {| to_visit := to_visit st; visited := visited st; pages_data := pages_data st;
     requests := requests st ++ [u]; queue_sizes := queue_sizes st |}.

(** [pages_data.append(p)]. *)
Definition pages_append (p : Page.t) (st : crawl_state) : crawl_state :=
  {| to_visit := to_visit st; visited := visited st;
     pages_data := pages_data st ++ [p];
     requests := requests st; queue_sizes := queue_sizes st |}.

Definition crawl_init (url : string) : crawl_state :=
  {| to_visit := [url]; visited := ∅; pages_data := [];
     requests := []; queue_sizes := [1] |}.

(** [while to_visit and len(visited) < max_pages]. *)
Definition loop_cond (max_pages : Z) (st : crawl_state) : bool :=
  negb (bool_decide (to_visit st = [])) && (Z.of_nat (size (visited st)) <? max_pages)%Z.

(** Turns of the loop that are enough for every crawl with this limit. *)
Definition crawl_fuel (max_pages : Z) : nat :=
  S (Z.to_nat (max_pages * (2 * max_pages + 1) + 1)).

(** The dict that stands for a competitor whose analysis raised. *)
Module ErrorEntry.
Record t : Type := {
  competitor_url : string;
  error : string;
  compliance_score : Q
}.
End ErrorEntry.

Inductive competitor_result : Type :=
  | analyzed (r : Site.t)
  | failed (e : ErrorEntry.t).

(** [r.get("compliance_score", 0)] and the like. *)
Definition get_compliance_score (r : competitor_result) : Q :=
  match r with
  | analyzed s => Site.compliance_score s
  | failed e => ErrorEntry.compliance_score e
  end.

Definition get_competitor_url (r : competitor_result) : string :=
  match r with
  | analyzed s => Site.competitor_url s
  | failed e => ErrorEntry.competitor_url e
  end.

Definition get_total_images (r : competitor_result) : nat :=
  match r with
  | analyzed s => Site.total_images s
  | failed _ => 0
  end.

Definition get_images_with_alt (r : competitor_result) : nat :=
  match r with
  | analyzed s => Site.images_with_alt s
  | failed _ => 0
  end.

(** [comp.get('competitor_domain', comp.get('competitor_url', ''))]. *)
Definition get_name (r : competitor_result) : string :=
  match r with
  | analyzed s => Site.competitor_domain s
  | failed e => ErrorEntry.competitor_url e
  end.

Module Summary.
Record t : Type := {
  url : string;
  compliance_score : Q;
  total_images : nat;
  images_with_alt : nat
}.
End Summary.

Record comparison : Type := {
  your_site : Summary.t;
  competitors : list Summary.t;
  your_rank : nat;
  advantage_areas : list string;
  improvement_areas : list string
}.

(** The dict [compare_competitors] returns, without [analyzed_at]. *)
Record compare_result : Type := {
  comparison_of : comparison;
  your_detailed_results : Site.t;
  competitor_detailed_results : list competitor_result
}.

(** [scores.sort(reverse=True)]: each score goes before the first one that
    is not above it. *)
Fixpoint insert_desc (x : Q) (l : list Q) : list Q :=
  match l with
  | [] => [x]
  | y :: t => if Qle_bool y x then x :: l else y :: insert_desc x t
  end.

Definition sort_reverse (l : list Q) : list Q := foldr insert_desc [] l.

(** [l.index(x)]; [None] is the [ValueError]. *)
Fixpoint index (x : Q) (l : list Q) : option nat :=
  match l with
  | [] => None
  | y :: t => if Qeq_bool y x then Some 0 else S <$> index x t
  end.

Section Services.

(** [urllib.parse.urlparse], which can raise [ValueError]. *)
Variable urlparse : string -> py_result parsed_url.

(** [await client.get(url, headers=...)]: the response, or the exception. *)
Variable client_get : string -> py_result response.

(** How an f-string prints a float. *)
Variable float_str : Q -> string.

Definition _identify_opportunities (pages_data : list Page.t) (domain : string)
  : list Opportunity.t :=
  let opportunities : list Opportunity.t := [] in
  let good_ratio := good_ratio pages_data in
  let opportunities :=
    if Qlt_le_dec good_ratio 50 then
      opportunities ++
        [{| Opportunity.type := "seo_advantage";
            Opportunity.impact := "high";
            Opportunity.description :=
              "Competitor " +:+ domain +:+ " has only "
              +:+ float_str (PyNum.round1 good_ratio)
              +:+ "% good alt text — massive SEO opportunity";
            Opportunity.action :=
              "Ensure all your product images have keyword-rich, descriptive alt text" |}]
    else opportunities in
  let opportunities :=
    if Qlt_le_dec good_ratio 80 then
      opportunities ++
        [{| Opportunity.type := "accessibility_leadership";
            Opportunity.impact := "medium";
            Opportunity.description :=
              "Competitor lacks WCAG compliance — position yourself as the accessible choice";
            Opportunity.action :=
              "Achieve WCAG AAA compliance and promote it in marketing" |}]
    else opportunities in
  opportunities ++
    [{| Opportunity.type := "image_search_ranking";
        Opportunity.impact := "high";
        Opportunity.description :=
          "Well-optimized alt text directly improves Google Image Search rankings";
        Opportunity.action :=
          "Use TheAltText to generate SEO-optimized alt text for all product images" |}].

(** The [href] the loop tests: a link that starts with a slash is rebuilt
    from the scheme of [current_url] and from [domain]. *)
Definition resolve_href (domain current_url href : string) : py_result string :=
  if PyStr.startswith "/" href then
    p ← urlparse current_url;
    mret (scheme p +:+ "://" +:+ domain +:+ href)
  else mret href.

(** [for link in soup.find_all("a", href=True)]; an exception leaves the
    loop for the [except] clause, with the links of before it kept. *)
Fixpoint discover_links (domain : string) (max_pages : Z) (current_url : string)
    (hrefs : list string) (st : crawl_state) : crawl_state :=
  match hrefs with
  | [] => st
  | href :: rest =>
      match resolve_href domain current_url href with
      | Raise _ => st
      | Ok href =>
          let st :=
            if PyStr.contains domain href
               && negb (bool_decide (href ∈ visited st))
               && (Z.of_nat (length (to_visit st)) <? max_pages * 2)%Z
            then set_to_visit (to_visit st ++ [href]) st
            else st in
          discover_links domain max_pages current_url rest st
      end
  end.

(** The body of the [while] loop. *)
Definition loop_body (domain : string) (max_pages : Z) (st : crawl_state)
  : crawl_state :=
  match to_visit st with
  | [] => st
  | current_url :: rest =>
      let st := set_to_visit rest st in
      if bool_decide (current_url ∈ visited st) then st
      else
        let st := note_request current_url (visited_add current_url st) in
        match client_get current_url with
        | Raise _ => st
        | Ok response =>
            if negb (status_code response =? 200)%Z then st
            else
              let soup := text response in
              let page_data := _analyze_page soup current_url in
              let st := pages_append page_data st in
              discover_links domain max_pages current_url
                             (Dom.find_all_a_href soup) st
        end
  end.

(** The [while] loop, for at most [fuel] turns. *)
Fixpoint crawl_loop (domain : string) (max_pages : Z) (fuel : nat)
    (st : crawl_state) : crawl_state :=
  match fuel with
  | O => st
  | S fuel' =>
      if loop_cond max_pages st
      then crawl_loop domain max_pages fuel' (loop_body domain max_pages st)
      else st
  end.

Definition analyze_competitor (url : string) (max_pages : Z) : py_result Site.t :=
  p ← urlparse url;
  let domain := netloc p in
  let st := crawl_loop domain max_pages (crawl_fuel max_pages) (crawl_init url) in
  let pages_data := pages_data st in
  let total_images := sum_of Page.total_images pages_data in
  let images_with_alt := sum_of Page.images_with_alt pages_data in
  let images_missing_alt := sum_of Page.images_missing_alt pages_data in
  let images_poor_alt := sum_of Page.images_poor_alt pages_data in
  let images_good_alt := sum_of Page.images_good_alt pages_data in
  let compliance_score :=
    if (0 <? total_images)%nat
    then (PyNum.of_nat images_with_alt / PyNum.of_nat total_images * 100)%Q
    else 100%Q in
  let gaps := _identify_gaps pages_data in
  let opportunities := _identify_opportunities pages_data domain in
  mret {| Site.competitor_url := url;
          Site.competitor_domain := domain;
          Site.pages_analyzed := length pages_data;
          Site.total_images := total_images;
          Site.images_with_alt := images_with_alt;
          Site.images_missing_alt := images_missing_alt;
          Site.images_poor_alt := images_poor_alt;
          Site.images_good_alt := images_good_alt;
          Site.compliance_score := PyNum.round1 compliance_score;
          Site.gaps := gaps;
          Site.opportunities := opportunities;
          Site.page_details := pages_data |}.

(** [for comp_url in competitor_urls: try: ... except Exception as e: ...]. *)
Definition analyze_each (competitor_urls : list string) (max_pages_each : Z)
  : list competitor_result :=
  (fun comp_url =>
     match analyze_competitor comp_url max_pages_each with
     | Ok result => analyzed result
     | Raise e =>
         failed {| ErrorEntry.competitor_url := comp_url;
                   ErrorEntry.error := e;
                   ErrorEntry.compliance_score := 0 |}
     end) <$> competitor_urls.

(** One turn of the loop over [competitor_results] that fills the two lists
    of sentences. *)
Definition compare_one (your_score : Q) (areas : list string * list string)
    (comp : competitor_result) : list string * list string :=
  let comp_score := get_compliance_score comp in
  if Qlt_le_dec comp_score your_score then
    (areas.1 ++ ["You outperform " +:+ get_name comp +:+ " by "
                 +:+ float_str (PyNum.round1 (your_score - comp_score))
                 +:+ " points"],
     areas.2)
  else if Qlt_le_dec your_score comp_score then
    (areas.1,
     areas.2 ++ [get_name comp +:+ " leads by "
                 +:+ float_str (PyNum.round1 (comp_score - your_score))
                 +:+ " points — focus on improving alt text quality"])
  else areas.

(** The comparison [compare_competitors] builds from the results. *)
Definition make_comparison (your_url : string) (your_result : Site.t)
    (competitor_results : list competitor_result) : py_result comparison :=
  let your_score := Site.compliance_score your_result in
  let all_scores := your_score :: (get_compliance_score <$> competitor_results) in
  let all_scores := sort_reverse all_scores in
  match index your_score all_scores with
  | None => Raise "ValueError"
  | Some i =>
      let areas := fold_left (compare_one your_score) competitor_results ([], []) in
      mret {| your_site :=
                {| Summary.url := your_url;
                   Summary.compliance_score := your_score;
                   Summary.total_images := Site.total_images your_result;
                   Summary.images_with_alt := Site.images_with_alt your_result |};
              competitors :=
                (fun r => {| Summary.url := get_competitor_url r;
                             Summary.compliance_score := get_compliance_score r;
                             Summary.total_images := get_total_images r;
                             Summary.images_with_alt := get_images_with_alt r |})
                  <$> competitor_results;
              your_rank := i + 1;
              advantage_areas := areas.1;
              improvement_areas := areas.2 |}
  end.

Definition compare_competitors (your_url : string) (competitor_urls : list string)
    (max_pages_each : Z) : py_result compare_result :=
  your_result ← analyze_competitor your_url max_pages_each;
  let competitor_results := analyze_each competitor_urls max_pages_each in
  comparison ← make_comparison your_url your_result competitor_results;
  mret {| comparison_of := comparison;
          your_detailed_results := your_result;
          competitor_detailed_results := competitor_results |}.

End Services.

End CompetitorAnalysis.

(** * [wcag_checker.py] *)

Module WcagChecker.

Record issue : Type := {
  wcag_criterion : string;
  severity : string;
  message : string;
  element : option string;
  src : option string;
  fix_ : string
}.

Record pass : Type := {
  pass_criterion : string;
  check : string
}.

Record img_result : Type := {
  img_src : string;
  img_alt : option string;
  is_decorative : bool;
  img_issues : list issue;
  img_passes : list pass;
  compliant : bool
}.

Record svg_result : Type := {
  has_title : bool;
  aria_label : string;
  svg_issues : list issue;
  svg_passes : list pass
}.

(** An entry of [image_results]. *)
Inductive image_result : Type :=
  | of_img (r : img_result)
  | of_svg (r : svg_result).

Definition generic_alts : list string :=
  ["image"; "photo"; "picture"; "icon"; "logo"; "graphic"; "banner";
   "placeholder"; "untitled"; "img"; "pic"; "thumbnail"].

Definition redundant_prefixes : list string :=
  ["image of"; "picture of"; "photo of"; "graphic of"; "icon of"].

Definition filename_exts : list string :=
  ["jpg"; "jpeg"; "png"; "gif"; "svg"; "webp"; "bmp"; "tiff"].

(** Two double quotes, as the fix texts print them. *)
Definition quotes : string :=
  String (ascii_of_nat 34) (String (ascii_of_nat 34) EmptyString).

Definition passed (c : string) : pass :=
  {| pass_criterion := "1.1.1"; check := c |}.

(** The checks of [_check_img_element] on an alt text that is not empty. *)
Definition check_alt_text (alt src longdesc : string) (passes : list pass)
  : list issue * list pass :=
  let issues : list issue := [] in
  let '(issues, passes) :=
    if Regex.match_anchored (Regex.filename_re filename_exts) alt then
      (issues ++ [{| wcag_criterion := "1.1.1"; severity := "critical";
                     message := "Alt text appears to be a filename: '" +:+ alt +:+ "'";
                     element := None; src := Some (PyStr.take 200 src);
                     fix_ := "Replace filename with descriptive text about the image content" |}],
       passes)
    else (issues, passes ++ [passed "alt_not_filename"]) in
  let '(issues, passes) :=
    if PyStr.in_list (PyStr.strip (PyStr.lower alt)) generic_alts then
      (issues ++ [{| wcag_criterion := "1.1.1"; severity := "major";
                     message := "Generic/non-descriptive alt text: '" +:+ alt +:+ "'";
                     element := None; src := Some (PyStr.take 200 src);
                     fix_ := "Replace with specific description of the image content and purpose" |}],
       passes)
    else (issues, passes ++ [passed "alt_not_generic"]) in
  let issues :=
    match find (fun prefix => PyStr.startswith prefix (PyStr.lower alt)) redundant_prefixes with
    | Some prefix =>
        issues ++ [{| wcag_criterion := "1.1.1"; severity := "minor";
                      message := "Alt text starts with redundant prefix: '" +:+ prefix +:+ "'";
                      element := None; src := Some (PyStr.take 200 src);
                      fix_ := "Remove '" +:+ prefix
                             +:+ "' — screen readers already announce it as an image" |}]
    | None => issues
    end in
  let issues :=
    if (250 <? String.length alt)%nat && negb (PyStr.truthy longdesc) then
      issues ++ [{| wcag_criterion := "1.1.1"; severity := "minor";
                    message := "Alt text is very long (" +:+ pretty (String.length alt)
                               +:+ " chars) — consider using longdesc";
                    element := None; src := Some (PyStr.take 200 src);
                    fix_ := "For complex images, use a shorter alt and provide longdesc or aria-describedby" |}]
    else issues in
  let issues :=
    if String.eqb alt (PyStr.upper alt) && (5 <? String.length alt)%nat then
      issues ++ [{| wcag_criterion := "1.1.1"; severity := "minor";
                    message := "Alt text is all uppercase — poor screen reader experience";
                    element := None; src := Some (PyStr.take 200 src);
                    fix_ := "Use sentence case for better screen reader pronunciation" |}]
    else issues in
  (issues, passes).

Definition _check_img_element (img : Dom.element) (wcag_level : string) : img_result :=
  let src := Dom.get_or img "src" "" in
  let alt := Dom.get img "alt" in
  let role := Dom.get_or img "role" "" in
  let aria_hidden := Dom.get_or img "aria-hidden" "" in
  let longdesc := Dom.get_or img "longdesc" "" in
  let width := Dom.get_or img "width" "" in
  let height := Dom.get_or img "height" "" in
  let is_decorative :=
    String.eqb role "presentation" || String.eqb role "none"
    || String.eqb aria_hidden "true" in
  let '(issues, passes) :=
    match alt with
    | None =>
        if negb is_decorative then
          ([{| wcag_criterion := "1.1.1"; severity := "critical";
               message := "Image missing alt attribute entirely";
               element := Some (PyStr.take 200 (Dom.outer_html img));
               src := Some (PyStr.take 200 src);
               fix_ := "Add alt=" +:+ quotes
                       +:+ " for decorative images or descriptive alt text for informative images" |}],
           [])
        else ([], [])
    | Some alt =>
        let passes := [passed "has_alt"] in
        if String.eqb alt "" && negb is_decorative then
          ([{| wcag_criterion := "1.1.1"; severity := "major";
               message := "Empty alt text on non-decorative image";
               element := Some (PyStr.take 200 (Dom.outer_html img));
               src := Some (PyStr.take 200 src);
               fix_ := "Add descriptive alt text or mark as decorative with role='presentation'" |}],
           passes)
        else if negb (String.eqb alt "") then
          check_alt_text alt src longdesc (passes ++ [passed "alt_not_empty"])
        else ([], passes)
    end in
  let issues :=
    if is_decorative && from_option PyStr.truthy false alt then
      issues ++ [{| wcag_criterion := "1.1.1"; severity := "major";
                    message := "Decorative image (role=presentation) has non-empty alt text";
                    element := None; src := Some (PyStr.take 200 src);
                    fix_ := "Set alt=" +:+ quotes +:+ " for decorative images" |}]
    else issues in
  let issues :=
    if negb (PyStr.truthy width) || negb (PyStr.truthy height) then
      issues ++ [{| wcag_criterion := "1.3.1"; severity := "minor";
                    message := "Image missing width/height attributes — may cause layout shift";
                    element := None; src := Some (PyStr.take 200 src);
                    fix_ := "Add explicit width and height attributes to prevent CLS" |}]
    else issues in
  {| img_src := PyStr.take 200 src;
     img_alt := alt;
     is_decorative := is_decorative;
     img_issues := issues;
     img_passes := passes;
     compliant := bool_decide (length issues = 0) |}.

Definition _check_svg_element (svg : Dom.svg_element) : svg_result :=
  let issues : list issue := [] in
  let passes : list pass := [] in
  let role := Dom.get_or (Dom.svg_tag svg) "role" "" in
  let aria_label := Dom.get_or (Dom.svg_tag svg) "aria-label" "" in
  let aria_hidden := Dom.get_or (Dom.svg_tag svg) "aria-hidden" "" in
  let title_elem := Dom.svg_title svg in
  let '(issues, passes) :=
    if negb (String.eqb aria_hidden "true") && negb (String.eqb role "presentation") then
      let '(issues, passes) :=
        if negb (PyStr.truthy aria_label) && negb title_elem then
          (issues ++ [{| wcag_criterion := "1.1.1"; severity := "major";
                         message := "SVG missing accessible name (no aria-label or <title>)";
                         element := None; src := None;
                         fix_ := "Add aria-label or a <title> element inside the SVG" |}],
           passes)
        else (issues, passes ++ [passed "svg_has_name"]) in
      if negb (String.eqb role "img") then
        (issues ++ [{| wcag_criterion := "4.1.2"; severity := "minor";
                       message := "SVG missing role='img' for proper screen reader announcement";
                       element := None; src := None;
                       fix_ := "Add role='img' to the SVG element" |}],
         passes)
      else (issues, passes)
    else (issues, passes) in
  {| has_title := title_elem;
     aria_label := aria_label;
     svg_issues := issues;
     svg_passes := passes |}.

Definition _check_figure_element (figure : Dom.figure_element) : list issue * list pass :=
  if Dom.figure_img figure && negb (Dom.figcaption figure) then
    ([{| wcag_criterion := "1.1.1"; severity := "minor";
         message := "Figure with image missing <figcaption>";
         element := None; src := None;
         fix_ := "Add a <figcaption> to provide context for the figure" |}],
     [])
  else if Dom.figcaption figure then ([], [passed "figure_has_caption"])
  else ([], []).

Definition _check_input_image (inp : Dom.element) : list issue * list pass :=
  let alt := Dom.get_or inp "alt" "" in
  if negb (PyStr.truthy alt) then
    ([{| wcag_criterion := "1.1.1"; severity := "critical";
         message := "Image input missing alt text";
         element := None; src := None;
         fix_ := "Add alt attribute describing the button action" |}],
     [])
  else ([], [passed "input_image_has_alt"]).

Definition _check_area_element (area : Dom.element) : list issue * list pass :=
  let alt := Dom.get_or area "alt" "" in
  if negb (PyStr.truthy alt) then
    ([{| wcag_criterion := "1.1.1"; severity := "critical";
         message := "Image map area missing alt text";
         element := None; src := None;
         fix_ := "Add alt attribute describing the linked area" |}],
     [])
  else ([], [passed "area_has_alt"]).

Definition _check_page_level (soup : Dom.soup) : list issue :=
  let issues : list issue := [] in
  let issues :=
    if negb (Dom.find_skip_link soup) then
      issues ++ [{| wcag_criterion := "2.4.1"; severity := "minor";
                    message := "No skip navigation link found";
                    element := None; src := None;
                    fix_ := "Add a skip-to-content link at the top of the page" |}]
    else issues in
  let issues :=
    match Dom.find_html soup with
    | Some html_tag =>
        if negb (from_option PyStr.truthy false (Dom.get html_tag "lang")) then
          issues ++ [{| wcag_criterion := "3.1.1"; severity := "major";
                        message := "HTML element missing lang attribute";
                        element := None; src := None;
                        fix_ := "Add lang attribute to <html> element (e.g., lang=" +:+ String (ascii_of_nat 34) "en"
                                +:+ String (ascii_of_nat 34) ")" |}]
        else issues
    | None => issues
    end in
  match Dom.find_meta_viewport soup with
  | Some viewport =>
      let content := Dom.get_or viewport "content" "" in
      if PyStr.contains "maximum-scale=1" content || PyStr.contains "user-scalable=no" content then
        issues ++ [{| wcag_criterion := "1.4.4"; severity := "major";
                      message := "Viewport meta prevents user scaling";
                      element := None; src := None;
                      fix_ := "Remove maximum-scale=1 and user-scalable=no from viewport meta" |}]
      else issues
  | None => issues
  end.

Definition count_severity (sev : string) (issues : list issue) : nat :=
  length (filter (fun i => severity i = sev) issues).

Definition _generate_recommendations (issues : list issue) (score : Q) : list string :=
  let recommendations : list string := [] in
  let critical_count := count_severity "critical" issues in
  let major_count := count_severity "major" issues in
  let recommendations :=
    if (0 <? critical_count)%nat then
      recommendations ++ ["URGENT: Fix " +:+ pretty critical_count
        +:+ " critical issues first — these are WCAG Level A failures"]
    else recommendations in
  let recommendations :=
    if (0 <? major_count)%nat then
      recommendations ++ ["HIGH PRIORITY: Address " +:+ pretty major_count
        +:+ " major issues for WCAG AA compliance"]
    else recommendations in
  let recommendations :=
    if Qlt_le_dec score 50 then
      recommendations ++
        ["Consider a full accessibility audit — significant compliance gaps detected"]
    else recommendations in
  let recommendations :=
    if Qlt_le_dec score 90 then recommendations
    else
      recommendations ++
        ["Strong accessibility foundation — focus on minor refinements for AAA compliance"] in
  let criteria_seen := wcag_criterion <$> issues in
  let recommendations :=
    if PyStr.in_list "1.1.1" criteria_seen then
      recommendations ++
        ["Review all images for meaningful alt text — this is the most common accessibility failure"]
    else recommendations in
  if PyStr.in_list "4.1.2" criteria_seen then
    recommendations ++
      ["Ensure all interactive elements have proper ARIA labels and roles"]
  else recommendations.

(** [by_criterion] of [check_url]: the issues under their criterion, the
    criteria in the order they first occur. *)
Fixpoint group_add (i : issue) (groups : list (string * list issue))
  : list (string * list issue) :=
  match groups with
  | [] => [(wcag_criterion i, [i])]
  | (c, members) :: rest =>
      if String.eqb c (wcag_criterion i) then (c, members ++ [i]) :: rest
      else (c, members) :: group_add i rest
  end.

Definition by_criterion (issues : list issue) : list (string * list issue) :=
  fold_left (fun groups i => group_add i groups) issues [].

(** The early return of [check_url] when the request raised. *)
Module ErrorResult.
Record t : Type := {
  url : string;
  error : string;
  compliance_score : Q;
  status : string
}.
End ErrorResult.

(** The full report of [check_url], without the two clock readings. *)
Module Report.
Record t : Type := {
  url : string;
  wcag_level : string;
  compliance_score : Q;
  status : string;
  total_images : nat;
  total_svgs : nat;
  total_background_images : nat;
  total_figures : nat;
  total_checks_performed : nat;
  total_passes : nat;
  total_issues : nat;
  critical_issues : nat;
  major_issues : nat;
  minor_issues : nat;
  issues_by_severity : list issue * list issue * list issue;
  issues_by_criterion : list (string * list issue);
  image_results : list image_result;
  page_level_issues : list issue;
  recommendations : list string
}.
End Report.

Inductive check_result : Type :=
  | check_failed (e : ErrorResult.t)
  | check_done (r : Report.t).

Section Services.

(** [await client.get(url, headers=...)]: the response, or the exception. *)
Variable client_get : string -> py_result response.

(** [re.findall] of the [url(...)] pattern on a [style] attribute. *)
Variable findall_url : string -> list string.

Definition _find_background_images (soup : Dom.soup) : list string :=
  concat ((fun style =>
             if PyStr.contains "background-image" style || PyStr.contains "background:" style
             then findall_url style else [])
          <$> Dom.find_all_style soup).

Definition check_url (url wcag_level : string) : py_result check_result :=
  match client_get url with
  | Raise e =>
      mret (check_failed {| ErrorResult.url := url;
                            ErrorResult.error := e;
                            ErrorResult.compliance_score := 0;
                            ErrorResult.status := "error" |})
  | Ok response =>
      let soup := text response in
      let images := Dom.find_all_img soup in
      let svg_images := Dom.find_all_svg soup in
      let bg_images := _find_background_images soup in
      let figures := Dom.find_all_figure soup in
      let inputs_with_images := Dom.find_all_input_image soup in
      let area_elements := Dom.find_all_area soup in
      let img_results := (fun img => _check_img_element img wcag_level) <$> images in
      let svg_results := _check_svg_element <$> svg_images in
      let fig_results := _check_figure_element <$> figures in
      let inp_results := _check_input_image <$> inputs_with_images in
      let area_results := _check_area_element <$> area_elements in
      let page_issues := _check_page_level soup in
      let all_issues :=
        concat (img_issues <$> img_results) ++ concat (svg_issues <$> svg_results)
        ++ concat (fst <$> fig_results) ++ concat (fst <$> inp_results)
        ++ concat (fst <$> area_results) ++ page_issues in
      let all_passes :=
        concat (img_passes <$> img_results) ++ concat (svg_passes <$> svg_results)
        ++ concat (snd <$> fig_results) ++ concat (snd <$> inp_results)
        ++ concat (snd <$> area_results) in
      let total_checks := length all_issues + length all_passes in
      let compliance_score :=
        if (0 <? total_checks)%nat
        then (PyNum.of_nat (length all_passes) / PyNum.of_nat total_checks * 100)%Q
        else 100%Q in
      let critical := filter (fun i => severity i = "critical") all_issues in
      let major := filter (fun i => severity i = "major") all_issues in
      let minor := filter (fun i => severity i = "minor") all_issues in
      mret (check_done
        {| Report.url := url;
           Report.wcag_level := wcag_level;
           Report.compliance_score := PyNum.round1 compliance_score;
           Report.status :=
             if Qlt_le_dec compliance_score 95
             then if Qlt_le_dec compliance_score 70 then "non_compliant" else "partial"
             else "compliant";
           Report.total_images := length images;
           Report.total_svgs := length svg_images;
           Report.total_background_images := length bg_images;
           Report.total_figures := length figures;
           Report.total_checks_performed := total_checks;
           Report.total_passes := length all_passes;
           Report.total_issues := length all_issues;
           Report.critical_issues := length critical;
           Report.major_issues := length major;
           Report.minor_issues := length minor;
           Report.issues_by_severity := (critical, major, minor);
           Report.issues_by_criterion := by_criterion all_issues;
           Report.image_results := (of_img <$> img_results) ++ (of_svg <$> svg_results);
           Report.page_level_issues := page_issues;
           Report.recommendations := _generate_recommendations all_issues compliance_score |})
  end.

End Services.

End WcagChecker.

(** * The batch check and the routes that call the services *)

Module WcagBatch.
Import WcagChecker.



Section Services.
Variable client_get : string -> py_result response.
Variable findall_url : string -> list string.




End Services.
End WcagBatch.

Module Routes.

(** What a route of [blue_ocean.py] answers once the request is validated
    and the user authenticated: [{"success": True, "data": result}], or the
    [HTTPException] it raises. *)
Inductive answer (A : Type) : Type :=
  | success (data : A)
  | http_exception (status_code : Z) (detail : string).

Arguments success {A} data.
Arguments http_exception {A} status_code detail.

(** [try: ... return {"success": True, "data": result}
    except Exception as e: raise HTTPException(status_code=500, detail=str(e))]. *)
Definition guarded {A} (body : py_result A) : answer A :=
  match body with
  | Ok result => success result
  | Raise e => http_exception 500 e
  end.

Section Services.
Variable urlparse : string -> py_result parsed_url.
Variable client_get : string -> py_result response.
Variable float_str : Q -> string.
Variable findall_url : string -> list string.



Definition analyze_competitor (competitor_url : string) (max_pages : Z)
  : answer CompetitorAnalysis.Site.t :=
  guarded (CompetitorAnalysis.analyze_competitor urlparse client_get float_str
             competitor_url max_pages).


End Services.
End Routes.

(** * Concrete pages, sites and collaborators *)

Module Examples.

Import CompetitorAnalysis.

(** [s.split(sep, 1)] when [sep] occurs in [s]. *)
Fixpoint split_once (sep s : string) : option (string * string) :=
  if String.prefix sep s
  then Some (EmptyString, String.substring (String.length sep) (String.length s) s)
  else
    match s with
    | EmptyString => None
    | String c t =>
        match split_once sep t with
        | Some (a, b) => Some (String c a, b)
        | None => None
        end
    end.

Fixpoint take_until (stop : ascii -> bool) (s : string) : string :=
  match s with
  | EmptyString => EmptyString
  | String c t => if stop c then EmptyString else String c (take_until stop t)
  end.

(** [urlparse] on URLs of the shape [scheme://netloc/path]: the network
    location ends at the first slash, question mark or hash, and a square
    bracket without its partner is the [ValueError] of [urlsplit]. *)
Definition urlparse (url : string) : py_result parsed_url :=
  match split_once "://" url with
  | Some (sch, rest) =>
      let loc :=
        take_until (fun c => Ascii.eqb c "/" || Ascii.eqb c "?" || Ascii.eqb c "#") rest in
      if xorb (PyStr.contains "[" loc) (PyStr.contains "]" loc)
      then Raise "Invalid IPv6 URL"
      else Ok {| scheme := sch; netloc := loc |}
  | None => Ok {| scheme := ""; netloc := "" |}
  end.

(** A float with one decimal, as an f-string prints a rounded score. *)
Definition float_str (q : Q) : string :=
  let tenths := Z.to_nat (Qfloor (q * 10)) in
  pretty (tenths / 10) +:+ "." +:+ pretty (tenths mod 10).

Definition img_tag (attributes : list (string * string)) : Dom.element :=
  {| Dom.attrs := list_to_map attributes; Dom.outer_html := "<img/>" |}.

(** A page with these images and these links, and nothing else. *)
Definition page (imgs : list Dom.element) (hrefs : list string) : response :=
  {| status_code := 200;
     text := {| Dom.find_all_img := imgs;
                Dom.find_all_a_href := hrefs;
                Dom.find_all_svg := [];
                Dom.find_all_figure := [];
                Dom.find_all_input_image := [];
                Dom.find_all_area := [];
                Dom.find_all_style := [];
                Dom.find_skip_link := false;
                Dom.find_html := None;
                Dom.find_meta_viewport := None |} |}.

Definition described : Dom.element :=
  img_tag [("src", "/a.png"); ("alt", "Red kettle on a wooden kitchen table")].

Definition bare : Dom.element := img_tag [("src", "/b.png")].

Definition spacer : Dom.element :=
  img_tag [("src", "/dot.gif"); ("role", "presentation")].

(** A shop of one page: three images, one of them described. *)
Definition shop (url : string) : py_result response :=
  if String.eqb url "https://shop.example/"
  then Ok (page [described; bare; bare] [])
  else Raise "ConnectError".

(** A front page with three links into its own site. *)
Definition portal (url : string) : py_result response :=
  if String.eqb url "https://portal.example/"
  then Ok (page [] ["/a"; "/b"; "/c"])
  else Ok (page [] []).

(** A site whose front page links to its blog on another host, where a
    post links to [/about]. *)
Definition blogged (url : string) : py_result response :=
  if String.eqb url "https://example.com/"
  then Ok (page [] ["https://blog.example.com/post"])
  else if String.eqb url "https://blog.example.com/post"
  then Ok (page [] ["/about"])
  else Ok (page [] []).

(** A page dict with these counts. *)
Definition counts (total with_alt missing_alt poor_alt good_alt : nat) : Page.t :=
  {| Page.url := "https://shop.example/";
     Page.total_images := total;
     Page.images_with_alt := with_alt;
     Page.images_missing_alt := missing_alt;
     Page.images_poor_alt := poor_alt;
     Page.images_good_alt := good_alt;
     Page.image_details := [] |}.


End Examples.

(** * Vocabulary of the statements *)

Module Spec.

Import CompetitorAnalysis.

(** How many image details carry one of the tiers [qs]. *)
Definition count_quality (qs : list quality) (details : list image_detail) : nat :=
  length (filter (fun d => detail_quality d ∈ qs) details).

(** The counters of a page dict agree with its list of details. *)
Record page_ok (p : Page.t) : Prop := {
  ok_details :
    length (Page.image_details p)
    = Page.images_missing_alt p + Page.images_poor_alt p + Page.images_good_alt p;
  ok_missing :
    Page.images_missing_alt p = count_quality [missing] (Page.image_details p);
  ok_poor :
    Page.images_poor_alt p
    = count_quality [empty; poor; acceptable] (Page.image_details p);
  ok_good :
    Page.images_good_alt p
    = count_quality [decorative_correct; good] (Page.image_details p);
  ok_with_alt :
    Page.images_with_alt p
    = count_quality [poor; acceptable; good] (Page.image_details p)
}.

(** The largest queue a crawl with this limit can hold: twice the limit,
    and the seed alone when the limit is not positive. *)
Definition queue_bound (max_pages : Z) : nat := Z.to_nat (Z.max 1 (max_pages * 2)).

(** What every turn of the crawl loop keeps. *)
Record crawl_inv (max_pages : Z) (st : crawl_state) : Prop := {
  inv_requests_nodup : NoDup (requests st);
  inv_requests_visited : visited st = list_to_set (requests st);
  inv_visited : size (visited st) ≤ Z.to_nat max_pages;
  inv_queue : length (to_visit st) ≤ queue_bound max_pages;
  inv_sizes : Forall (fun n => n ≤ queue_bound max_pages) (queue_sizes st);
  inv_pages :
    Forall (fun p => Page.images_with_alt p ≤ Page.total_images p) (pages_data st)
}.

(** A number that every turn of the crawl loop lowers. *)
Definition potential (max_pages : Z) (st : crawl_state) : Z :=
  ((max_pages - Z.of_nat (size (visited st))) * (2 * max_pages + 1)
   + Z.of_nat (length (to_visit st)))%Z.

(** How many scores of [l] are above, and how many below, [x]. *)
Fixpoint count_above (x : Q) (l : list Q) : nat :=
  match l with
  | [] => 0
  | y :: t => (if Qlt_le_dec x y then 1 else 0) + count_above x t
  end.


(** Every score is at least the ones after it. *)
Definition descending : list Q -> Prop := StronglySorted (fun a b => (b <= a)%Q).

(** How many opportunities have this type. *)
Definition count_type (t : string) (opps : list Opportunity.t) : nat :=
  length (filter (fun o => Opportunity.type o = t) opps).

End Spec.

(** * Vocabulary of the further statements *)

Module RegexSpec.
Import Regex.

(** The strings a pattern denotes. *)
Inductive lang : re -> string -> Prop :=
  | lang_eps : lang Eps EmptyString
  | lang_sat p c : p c = true -> lang (Sat p) (String c EmptyString)
  | lang_seq r1 r2 s1 s2 : lang r1 s1 -> lang r2 s2 -> lang (Seq r1 r2) (s1 +:+ s2)
  | lang_alt_l r1 r2 s : lang r1 s -> lang (Alt r1 r2) s
  | lang_alt_r r1 r2 s : lang r2 s -> lang (Alt r1 r2) s
  | lang_star_nil r : lang (Star r) EmptyString
  | lang_star_cons r s1 s2 : lang r s1 -> lang (Star r) s2 -> lang (Star r) (s1 +:+ s2).




End RegexSpec.

Module TraceSpec.

Import CompetitorAnalysis.

(** A page dict is the tally of the page its URL answered with. *)
Definition page_of_response (client_get : string -> py_result response) (p : Page.t) : Prop :=
  ∃ resp, client_get (Page.url p) = Ok resp
          ∧ status_code resp = 200%Z
          ∧ p = _analyze_page (text resp) (Page.url p).

(** A URL the crawl may hold: the seed, or one that contains the domain. *)
Definition on_site (domain seed u : string) : Prop :=
  u = seed ∨ PyStr.contains domain u = true.

(** What every turn of the crawl loop keeps, besides [crawl_inv]. *)
Record trace_inv (client_get : string -> py_result response)
    (domain seed : string) (st : crawl_state) : Prop := {
  tr_pages : Forall (page_of_response client_get) (pages_data st);
  tr_urls : sublist (Page.url <$> pages_data st) (requests st);
  tr_queue : Forall (on_site domain seed) (to_visit st);
  tr_requests : Forall (on_site domain seed) (requests st);
  tr_first :
    (requests st = [] ∧ to_visit st = [seed]) ∨ head (requests st) = Some seed
}.

End TraceSpec.

Module SiteSpec.

Import CompetitorAnalysis.


(** A page with images of which none has an alt text. *)
Definition zero_coverage (p : Page.t) : Prop :=
  Page.images_with_alt p = 0 ∧ 0 < Page.total_images p.

(** An image with [alt=""] that is marked decorative. *)
Definition decorative_blank (img : Dom.element) : Prop :=
  Dom.get img "alt" = Some ""
  ∧ (PyStr.in_list (Dom.get_or img "role" "") ["presentation"; "none"]
     || bool_decide (Dom.get img "aria-hidden" = Some "true")) = true.

End SiteSpec.

Module WcagSpec.

Import WcagChecker.

(** A critical or major issue of criterion 1.1.1. *)
Definition flagged (i : WcagChecker.issue) : Prop :=
  WcagChecker.wcag_criterion i = "1.1.1"
  ∧ (WcagChecker.severity i = "critical" ∨ WcagChecker.severity i = "major").


(** One of the three severities the report counts. *)
Definition known_severity (i : issue) : Prop :=
  severity i = "critical" ∨ severity i = "major" ∨ severity i = "minor".

(** [all_issues] and [all_passes] of [check_url] on a parsed page. *)
Definition all_issues (soup : Dom.soup) (wcag_level : string) : list issue :=
  concat ((fun img => img_issues (_check_img_element img wcag_level)) <$> Dom.find_all_img soup)
  ++ concat ((fun svg => svg_issues (_check_svg_element svg)) <$> Dom.find_all_svg soup)
  ++ concat ((fun fig => (_check_figure_element fig).1) <$> Dom.find_all_figure soup)
  ++ concat ((fun inp => (_check_input_image inp).1) <$> Dom.find_all_input_image soup)
  ++ concat ((fun area => (_check_area_element area).1) <$> Dom.find_all_area soup)
  ++ _check_page_level soup.

Definition all_passes (soup : Dom.soup) (wcag_level : string) : list pass :=
  concat ((fun img => img_passes (_check_img_element img wcag_level)) <$> Dom.find_all_img soup)
  ++ concat ((fun svg => svg_passes (_check_svg_element svg)) <$> Dom.find_all_svg soup)
  ++ concat ((fun fig => (_check_figure_element fig).2) <$> Dom.find_all_figure soup)
  ++ concat ((fun inp => (_check_input_image inp).2) <$> Dom.find_all_input_image soup)
  ++ concat ((fun area => (_check_area_element area).2) <$> Dom.find_all_area soup).

(** The score of [check_url] before it is rounded. *)
Definition raw_score (passes issues : nat) : Q :=
  if 0 <? issues + passes
  then (PyNum.of_nat passes / PyNum.of_nat (issues + passes) * 100)%Q
  else 100%Q.

(** The status [check_url] derives from that score. *)
Definition status_of (score : Q) : string :=
  if Qlt_le_dec score 95
  then if Qlt_le_dec score 70 then "non_compliant" else "partial"
  else "compliant".

(** The keys of [by_criterion], in their order. *)
Definition criteria (groups : list (string * list issue)) : list string := fst <$> groups.

(** What holds of the groups after the issues [seen]. *)
Record grouped (seen : list issue) (groups : list (string * list issue)) : Prop := {
  gr_nodup : NoDup (criteria groups);
  gr_members : ∀ c ms, (c, ms) ∈ groups ->
      ms ≠ [] ∧ ms = filter (fun i => wcag_criterion i = c) seen;
  gr_keys : ∀ i, i ∈ seen -> wcag_criterion i ∈ criteria groups;
  gr_length : length (concat (snd <$> groups)) = length seen
}.

(** An SVG the checker leaves alone. *)
Definition svg_hidden (svg : Dom.svg_element) : Prop :=
  Dom.get_or (Dom.svg_tag svg) "aria-hidden" "" = "true"
  ∨ Dom.get_or (Dom.svg_tag svg) "role" "" = "presentation".

(** An SVG with an accessible name. *)
Definition svg_named (svg : Dom.svg_element) : Prop :=
  Dom.get_or (Dom.svg_tag svg) "aria-label" "" ≠ "" ∨ Dom.svg_title svg = true.

(** An element without [alt], or with an empty one. *)
Definition no_alt (e : Dom.element) : Prop :=
  Dom.get e "alt" = None ∨ Dom.get e "alt" = Some "".

(** The two recommendations [_generate_recommendations] derives from the
    score alone. *)
Definition audit_note : string :=
  "Consider a full accessibility audit — significant compliance gaps detected".

Definition foundation_note : string :=
  "Strong accessibility foundation — focus on minor refinements for AAA compliance".


End WcagSpec.

Module MoreExamples.

Import Examples.

(** A spacer image marked as decoration, with the empty alt text. *)
Definition blank_spacer : Dom.element :=
  img_tag [("src", "/dot.gif"); ("alt", EmptyString); ("role", "presentation")].

(** An image whose alt text is its file name. *)
Definition named_by_file : Dom.element :=
  img_tag [("src", "/p.jpg"); ("alt", "photo.jpg")].

(** No [url(...)] in any style attribute. *)
Definition no_urls (style : string) : list string := [].

End MoreExamples.

(** * Rounding to one decimal *)

Module RoundingFacts.

Lemma round_half_even_floor x :
  (Qfloor x <= PyNum.round_half_even x <= Qfloor x + 1)%Z.
Proof.
  unfold PyNum.round_half_even.
  destruct (_ ?= _)%Q; [destruct (Z.even _)| |]; lia.
Qed.



(** Rounding a percentage gives a percentage. *)
Lemma round1_range x : (0 <= x <= 100 -> 0 <= PyNum.round1 x <= 100)%Q.
Proof.
  intros [H0 H100]. unfold PyNum.round1.
  assert (Hz : (0 <= PyNum.round_half_even (x * 10) <= 1000)%Z).
  { pose proof (round_half_even_floor (x * 10)) as [Hlo Hhi].
    assert (Hf0 : (0 <= Qfloor (x * 10))%Z).
    { change 0%Z with (Qfloor 0). apply Qfloor_resp_le. lra. }
    assert (Hf1 : (Qfloor (x * 10) <= 1000)%Z).
    { change 1000%Z with (Qfloor 1000). apply Qfloor_resp_le. lra. }
    split; [lia|].
    destruct (Z.eq_dec (Qfloor (x * 10)) 1000%Z) as [E|NE]; [|lia].
    unfold PyNum.round_half_even. cbv zeta. rewrite E.
    change (inject_Z 1000) with 1000%Q.
    destruct (Qcompare_spec (x * 10 - 1000) (1 # 2)) as [He|Hl|Hg].
    - exfalso. lra.
    - lia.
    - exfalso. lra. }
  destruct Hz as [Hz0 Hz1].
  rewrite Zle_Qle in Hz0, Hz1.
  change (inject_Z 0) with 0%Q in Hz0. change (inject_Z 1000) with 1000%Q in Hz1.
  unfold Qdiv. change (/ 10)%Q with (1 # 10)%Q.
  set (n := inject_Z _) in *. lra.
Qed.

(** A part of a whole is between 0 and 100 percent of it. *)
Lemma percent_range (w t : nat) :
  0 < t -> w ≤ t ->
  (0 <= PyNum.of_nat w / PyNum.of_nat t * 100 <= 100)%Q.
Proof.
  intros Ht Hw. unfold PyNum.of_nat.
  assert (Hw0 : (0 <= inject_Z (Z.of_nat w))%Q).
  { change 0%Q with (inject_Z 0). rewrite <- Zle_Qle. lia. }
  assert (Ht0 : (0 < inject_Z (Z.of_nat t))%Q).
  { change 0%Q with (inject_Z 0). rewrite <- Zlt_Qlt. lia. }
  assert (Hwt : (inject_Z (Z.of_nat w) <= inject_Z (Z.of_nat t))%Q).
  { rewrite <- Zle_Qle. lia. }
  set (a := inject_Z (Z.of_nat w)) in *. set (b := inject_Z (Z.of_nat t)) in *.
  assert (H1 : (0 <= a / b)%Q) by (apply Qle_shift_div_l; [done|lra]).
  assert (H2 : (a / b <= 1)%Q) by (apply Qle_shift_div_r; [done|lra]).
  set (q := (a / b)%Q) in *. lra.
Qed.

End RoundingFacts.

(** * The page tally and the alt-text assessor *)

Module PageFacts.

Import CompetitorAnalysis Spec.

(** The assessor answers with one of three tiers. *)
Lemma assess_quality_cases alt src :
  (_assess_alt_quality alt src).1 = poor
  ∨ (_assess_alt_quality alt src).1 = acceptable
  ∨ (_assess_alt_quality alt src).1 = good.
Proof.
  unfold _assess_alt_quality.
  repeat match goal with
  | |- context [if ?c then _ else _] => destruct c
  | |- context [match ?l with [] => _ | _ :: _ => _ end] => destruct l
  end; simpl; auto.
Qed.

(** On a match of its filename pattern the assessor stops with that issue
    alone. *)
Lemma assess_filename_short_circuit alt src :
  Regex.match_anchored (Regex.filename_re filename_exts) alt = true ->
  _assess_alt_quality alt src = (poor, ["Alt text is a filename"]).
Proof. intros H. unfold _assess_alt_quality. by rewrite H. Qed.

Lemma count_quality_snoc qs ds d :
  count_quality qs (ds ++ [d])
  = count_quality qs ds + (if bool_decide (detail_quality d ∈ qs) then 1 else 0).
Proof.
  unfold count_quality. rewrite filter_app, length_app. f_equal.
  rewrite filter_cons, filter_nil.
  case_bool_decide; destruct (decide _); done.
Qed.

Lemma count_quality_le qs ds : count_quality qs ds ≤ length ds.
Proof. unfold count_quality. apply length_filter. Qed.

Ltac page_fields :=
  split; simpl; rewrite ?length_app, ?count_quality_snoc; simpl; lia.

Lemma analyze_img_ok results img : page_ok results -> page_ok (analyze_img results img).
Proof.
  intros [Hd Hm Hp Hg Hw]. unfold analyze_img.
  destruct (Dom.get img "alt") as [a|]; [destruct (String.eqb a "")|].
  - destruct (_ || _); page_fields.
  - pose proof (assess_quality_cases a (Dom.get_or img "src" "")) as Hq.
    destruct (_assess_alt_quality a (Dom.get_or img "src" "")) as [q iss].
    simpl in Hq. destruct (decide (q = good)) as [->|Hne]; [page_fields|].
    destruct Hq as [-> | [-> | ->]]; [page_fields|page_fields|done].
  - page_fields.
Qed.

Ltac img_cases :=
  unfold analyze_img;
  repeat match goal with
  | |- context [match ?c with _ => _ end] => destruct c
  end.

Lemma analyze_img_total results img :
  Page.total_images (analyze_img results img) = Page.total_images results.
Proof. img_cases; reflexivity. Qed.

(** A turn of the loop adds one detail at the end and keeps the others. *)
Lemma analyze_img_details results img :
  ∃ d, Page.image_details (analyze_img results img) = Page.image_details results ++ [d]
       ∧ (Dom.get img "alt" = None ->
          detail_quality d = missing ∧ issues d = ["No alt attribute"]
          ∧ Page.images_missing_alt (analyze_img results img)
            = S (Page.images_missing_alt results)).
Proof.
  unfold analyze_img. destruct (Dom.get img "alt") as [a|].
  - destruct (String.eqb a ""); [destruct (_ || _)|];
      [| |destruct (_assess_alt_quality _ _) as [q iss]; destruct (decide _)];
      eexists; (split; [reflexivity|discriminate]).
  - eexists. split; [reflexivity|]. intros _. simpl. repeat split. lia.
Qed.

Lemma fold_analyze_ok imgs results :
  page_ok results -> page_ok (fold_left analyze_img imgs results).
Proof.
  revert results. induction imgs as [|img imgs IH]; intros results H; simpl; [done|].
  apply IH, analyze_img_ok, H.
Qed.

Lemma fold_analyze_total imgs results :
  Page.total_images (fold_left analyze_img imgs results) = Page.total_images results.
Proof.
  revert results. induction imgs as [|img imgs IH]; intros results; simpl; [done|].
  rewrite IH. apply analyze_img_total.
Qed.

(** The detail of the image at place [i] of the loop. *)
Lemma fold_analyze_lookup imgs results i img :
  imgs !! i = Some img ->
  ∃ d, Page.image_details (fold_left analyze_img imgs results)
         !! (length (Page.image_details results) + i) = Some d
       ∧ (Dom.get img "alt" = None ->
          detail_quality d = missing ∧ issues d = ["No alt attribute"]).
Proof.
  revert results i. induction imgs as [|x imgs IH]; intros results i Hi; [done|].
  destruct (analyze_img_details results x) as (d & Hd & Hnone).
  destruct i as [|i]; simpl in *.
  - injection Hi as ->.
    assert (Hkeep : ∀ l r, Page.image_details r !! length (Page.image_details results) = Some d ->
              Page.image_details (fold_left analyze_img l r)
                !! length (Page.image_details results) = Some d).
    { induction l as [|y l IHl]; intros r Hr; simpl; [done|].
      apply IHl. destruct (analyze_img_details r y) as (d' & -> & _).
      by apply lookup_app_l_Some. }
    exists d. split.
    + rewrite Nat.add_0_r. apply Hkeep. rewrite Hd.
      rewrite lookup_app_r by lia. by rewrite Nat.sub_diag.
    + intros H. destruct (Hnone H) as (? & ? & _). done.
  - destruct (IH (analyze_img results x) i Hi) as (d' & Hl & Hp).
    exists d'. split; [|done].
    rewrite Hd, length_app in Hl. simpl in Hl.
    by replace (length (Page.image_details results) + S i)
      with (length (Page.image_details results) + 1 + i) by lia.
Qed.

Lemma fold_analyze_details_length imgs results :
  length (Page.image_details (fold_left analyze_img imgs results))
  = length (Page.image_details results) + length imgs.
Proof.
  revert results. induction imgs as [|img imgs IH]; intros results; simpl; [lia|].
  rewrite IH. destruct (analyze_img_details results img) as (d & -> & _).
  rewrite length_app. simpl. lia.
Qed.

(** The seven tiers, in the four groups of the tally, split any list of
    details. *)
Lemma count_quality_split ds :
  length ds
  = count_quality [unknown] ds + count_quality [missing] ds
    + count_quality [empty; poor; acceptable] ds
    + count_quality [decorative_correct; good] ds.
Proof.
  induction ds as [|d ds IH] using rev_ind; [done|].
  rewrite length_app, !count_quality_snoc. simpl.
  destruct (detail_quality d);
    repeat match goal with
    | |- context [bool_decide ?P] =>
        let b := eval vm_compute in (bool_decide P) in
        change (bool_decide P) with b
    end; cbv iota; lia.
Qed.

Lemma analyze_page_ok soup url : page_ok (_analyze_page soup url).
Proof. unfold _analyze_page. apply fold_analyze_ok. split; reflexivity. Qed.

Lemma analyze_page_counts_total soup url :
  length (Page.image_details (_analyze_page soup url))
  = Page.total_images (_analyze_page soup url).
Proof.
  unfold _analyze_page. by rewrite fold_analyze_details_length, fold_analyze_total.
Qed.

Lemma analyze_page_total soup url :
  Page.total_images (_analyze_page soup url) = length (Dom.find_all_img soup).
Proof. unfold _analyze_page. by rewrite fold_analyze_total. Qed.

(** C6. On every page that [_analyze_page] analyzes, [total_images] is the
    number of images, each image has one detail, and the three counters
    split the images by tier: [images_missing_alt] counts the tier missing,
    [images_poor_alt] the tiers empty, poor and acceptable, [images_good_alt]
    the tiers decorative_correct and good; so the three add up to
    [total_images]. *)
Theorem analyze_page_counts_partition soup url :
  let p := _analyze_page soup url in
  Page.total_images p = length (Dom.find_all_img soup)
  ∧ length (Page.image_details p) = Page.total_images p
  ∧ Page.images_missing_alt p + Page.images_poor_alt p + Page.images_good_alt p
    = Page.total_images p
  ∧ Page.images_missing_alt p = count_quality [missing] (Page.image_details p)
  ∧ Page.images_poor_alt p
    = count_quality [empty; poor; acceptable] (Page.image_details p)
  ∧ Page.images_good_alt p
    = count_quality [decorative_correct; good] (Page.image_details p)
  ∧ count_quality [unknown] (Page.image_details p) = 0.
Proof.
  intros p. subst p.
  pose proof (analyze_page_ok soup url) as [Hd Hm Hp Hg Hw].
  pose proof (analyze_page_total soup url) as Ht.
  assert (Hl : length (Page.image_details (_analyze_page soup url))
               = length (Dom.find_all_img soup)).
  { unfold _analyze_page. by rewrite fold_analyze_details_length. }
  pose proof (count_quality_split (Page.image_details (_analyze_page soup url))) as Hs.
  repeat split; try done; lia.
Qed.

(** C10. [_assess_alt_quality] is a function of the alt text alone: two
    calls on the same alt text give the same tier and the same issues,
    whatever the two [src] arguments are. *)
Theorem assess_alt_quality_ignores_src alt src1 src2 :
  _assess_alt_quality alt src1 = _assess_alt_quality alt src2.
Proof. reflexivity. Qed.

(** C4, at the failing input. The pattern of [_check_img_element], with
    [bmp] and [tiff], matches [holiday-photo.bmp] and
    [site-banner-2024.tiff]; the pattern of [_assess_alt_quality] stops at
    [webp], so the assessor rates both names good, with no issue. *)
Theorem assess_misses_bmp_and_tiff src :
  Regex.match_anchored (Regex.filename_re WcagChecker.filename_exts)
                       "holiday-photo.bmp" = true
  ∧ Regex.match_anchored (Regex.filename_re WcagChecker.filename_exts)
                         "site-banner-2024.tiff" = true
  ∧ _assess_alt_quality "holiday-photo.bmp" src = (good, [])
  ∧ _assess_alt_quality "site-banner-2024.tiff" src = (good, []).
Proof. repeat split; vm_compute; reflexivity. Qed.

(** C5, as the claim states it, fails: a decorative image with no alt
    attribute gets the tier missing and the issue from [_analyze_page], and
    is counted in [images_missing_alt]. *)
Lemma decorative_image_without_alt_is_flagged :
  is_decorative <$> Page.image_details
      (_analyze_page (text (Examples.page [Examples.spacer] [])) "https://shop.example/")
  = [true]
  ∧ alt <$> Page.image_details
      (_analyze_page (text (Examples.page [Examples.spacer] [])) "https://shop.example/")
    = [None]
  ∧ detail_quality <$> Page.image_details
      (_analyze_page (text (Examples.page [Examples.spacer] [])) "https://shop.example/")
    = [missing]
  ∧ issues <$> Page.image_details
      (_analyze_page (text (Examples.page [Examples.spacer] [])) "https://shop.example/")
    = [["No alt attribute"]]
  ∧ Page.images_missing_alt
      (_analyze_page (text (Examples.page [Examples.spacer] [])) "https://shop.example/")
    = 1.
Proof. repeat split; vm_compute; reflexivity. Qed.

(** C5, amended. An image with no alt attribute gets, from
    [_analyze_page], the tier missing and the issue [No alt attribute],
    decorative or not. From [_check_img_element] it gets no pass, and the
    critical 1.1.1 issue [Image missing alt attribute entirely] first in its
    issues unless its role is [presentation] or [none] or its [aria-hidden]
    is [true]; in that case none of its issues is a 1.1.1 issue. *)
Theorem missing_alt_verdicts soup url level i img :
  Dom.find_all_img soup !! i = Some img ->
  Dom.get img "alt" = None ->
  (∃ d, Page.image_details (_analyze_page soup url) !! i = Some d
        ∧ detail_quality d = missing ∧ issues d = ["No alt attribute"])
  ∧ WcagChecker.img_passes (WcagChecker._check_img_element img level) = []
  ∧ (WcagChecker.is_decorative (WcagChecker._check_img_element img level) = true
     <-> Dom.get_or img "role" "" = "presentation"
         ∨ Dom.get_or img "role" "" = "none"
         ∨ Dom.get_or img "aria-hidden" "" = "true")
  ∧ (WcagChecker.is_decorative (WcagChecker._check_img_element img level) = false ->
     ∃ first rest,
       WcagChecker.img_issues (WcagChecker._check_img_element img level) = first :: rest
       ∧ WcagChecker.wcag_criterion first = "1.1.1"
       ∧ WcagChecker.severity first = "critical"
       ∧ WcagChecker.message first = "Image missing alt attribute entirely"
       ∧ Forall (fun x => WcagChecker.wcag_criterion x ≠ "1.1.1") rest)
  ∧ (WcagChecker.is_decorative (WcagChecker._check_img_element img level) = true ->
     Forall (fun x => WcagChecker.wcag_criterion x ≠ "1.1.1")
            (WcagChecker.img_issues (WcagChecker._check_img_element img level))).
Proof.
  intros Hi Halt. split.
  { unfold _analyze_page.
    match goal with |- context [fold_left _ _ ?r0] =>
      destruct (fold_analyze_lookup (Dom.find_all_img soup) r0 i img Hi) as (d & Hd & Hp)
    end.
    exists d. split; [exact Hd|]. by apply Hp. }
  unfold WcagChecker._check_img_element. rewrite Halt.
  set (dec := (String.eqb (Dom.get_or img "role" "") "presentation"
               || String.eqb (Dom.get_or img "role" "") "none"
               || String.eqb (Dom.get_or img "aria-hidden" "") "true")%bool).
  assert (Hdec : dec = true <-> Dom.get_or img "role" "" = "presentation"
                                ∨ Dom.get_or img "role" "" = "none"
                                ∨ Dom.get_or img "aria-hidden" "" = "true").
  { unfold dec. rewrite !orb_true_iff, !String.eqb_eq. tauto. }
  destruct dec; simpl;
    destruct (negb (PyStr.truthy (Dom.get_or img "width" ""))
              || negb (PyStr.truthy (Dom.get_or img "height" "")))%bool;
    simpl; (split; [reflexivity|]); (split; [exact Hdec|]);
    (split; intros Hd; try discriminate Hd).
  - repeat constructor. discriminate.
  - constructor.
  - do 2 eexists. repeat split. repeat constructor. discriminate.
  - do 2 eexists. repeat split. constructor.
Qed.

(** C5, amended, on a page of the examples: the spacer and the bare image
    of one page. *)
Lemma missing_alt_verdicts_witness :
  (∃ d, Page.image_details
          (_analyze_page (text (Examples.page [Examples.spacer; Examples.bare] []))
                         "https://shop.example/") !! 1 = Some d
        ∧ detail_quality d = missing ∧ issues d = ["No alt attribute"])
  ∧ WcagChecker.img_passes (WcagChecker._check_img_element Examples.bare "AAA") = []
  ∧ (WcagChecker.is_decorative (WcagChecker._check_img_element Examples.bare "AAA") = true
     <-> Dom.get_or Examples.bare "role" "" = "presentation"
         ∨ Dom.get_or Examples.bare "role" "" = "none"
         ∨ Dom.get_or Examples.bare "aria-hidden" "" = "true")
  ∧ (WcagChecker.is_decorative (WcagChecker._check_img_element Examples.bare "AAA") = false ->
     ∃ first rest,
       WcagChecker.img_issues (WcagChecker._check_img_element Examples.bare "AAA")
       = first :: rest
       ∧ WcagChecker.wcag_criterion first = "1.1.1"
       ∧ WcagChecker.severity first = "critical"
       ∧ WcagChecker.message first = "Image missing alt attribute entirely"
       ∧ Forall (fun x => WcagChecker.wcag_criterion x ≠ "1.1.1") rest)
  ∧ (WcagChecker.is_decorative (WcagChecker._check_img_element Examples.bare "AAA") = true ->
     Forall (fun x => WcagChecker.wcag_criterion x ≠ "1.1.1")
            (WcagChecker.img_issues (WcagChecker._check_img_element Examples.bare "AAA"))).
Proof.
  apply (missing_alt_verdicts
           (text (Examples.page [Examples.spacer; Examples.bare] []))
           "https://shop.example/" "AAA" 1 Examples.bare);
    vm_compute; reflexivity.
Defined.

End PageFacts.

(** * The crawl of [analyze_competitor] *)

Module CrawlFacts.

Import CompetitorAnalysis Spec.

Section Crawl.

Variable urlparse : string -> py_result parsed_url.
Variable client_get : string -> py_result response.
Variable float_str : Q -> string.
Variable domain : string.
Variable max_pages : Z.

Abbreviation discover := (discover_links urlparse domain max_pages).
Abbreviation body := (loop_body urlparse client_get domain max_pages).
Abbreviation loop := (crawl_loop urlparse client_get domain max_pages).

(** The loop over the links changes the queue and nothing else. *)
Lemma discover_links_frame cur hrefs st :
  visited (discover cur hrefs st) = visited st
  ∧ requests (discover cur hrefs st) = requests st
  ∧ pages_data (discover cur hrefs st) = pages_data st.
Proof.
  revert st. induction hrefs as [|href rest IH]; intros st; simpl; [done|].
  destruct (resolve_href _ _ _ _) as [h|e]; [|done].
  destruct (_ && _);
    rewrite !(proj1 (IH _)), !(proj1 (proj2 (IH _))), !(proj2 (proj2 (IH _))); done.
Qed.

(** It appends only while the queue is below twice the limit. *)
Lemma discover_links_queue cur hrefs st :
  length (to_visit st) ≤ queue_bound max_pages ->
  Forall (fun n => n ≤ queue_bound max_pages) (queue_sizes st) ->
  length (to_visit (discover cur hrefs st)) ≤ queue_bound max_pages
  ∧ Forall (fun n => n ≤ queue_bound max_pages) (queue_sizes (discover cur hrefs st)).
Proof.
  revert st. induction hrefs as [|href rest IH]; intros st Hq Hs; simpl; [done|].
  destruct (resolve_href _ _ _ _) as [h|e]; [|done].
  destruct (_ && _) eqn:Hc; [|by apply IH].
  apply andb_true_iff in Hc as [_ Hlt]. apply Z.ltb_lt in Hlt.
  assert (Hlen : length (to_visit st ++ [h]) ≤ queue_bound max_pages).
  { rewrite length_app. simpl. unfold queue_bound. lia. }
  apply IH; simpl; [done|].
  apply Forall_app. split; [done|]. by constructor.
Qed.

(** Whatever it appends is the resolved form of a link of the page. *)
Lemma discover_links_origin cur hrefs st u :
  u ∈ to_visit (discover cur hrefs st) ->
  u ∈ to_visit st
  ∨ ∃ href, href ∈ hrefs ∧ resolve_href urlparse domain cur href = Ok u
            ∧ PyStr.contains domain u = true.
Proof.
  revert st. induction hrefs as [|href rest IH]; intros st Hu; simpl in Hu; [by left|].
  destruct (resolve_href urlparse domain cur href) as [h|e] eqn:Hr; [|by left].
  destruct (_ && _) eqn:Hc.
  - apply IH in Hu as [Hu|(x & Hx & Hres)].
    + simpl in Hu. apply elem_of_app in Hu as [Hu| ->%list_elem_of_singleton]; [by left|].
      right. exists href. split; [left|]. split; [done|].
      by apply andb_true_iff in Hc as [[Hd _]%andb_true_iff _].
    + right. exists x. split; [by right|done].
  - apply IH in Hu as [Hu|(x & Hx & Hres)]; [by left|].
    right. exists x. split; [by right|done].
Qed.

Lemma loop_cond_true st :
  loop_cond max_pages st = true ->
  (∃ u rest, to_visit st = u :: rest) ∧ (Z.of_nat (size (visited st)) < max_pages)%Z.
Proof.
  unfold loop_cond. intros [Hq Hv]%andb_true_iff. apply Z.ltb_lt in Hv.
  split; [|done]. destruct (to_visit st) as [|u rest]; [done|eauto].
Qed.

Lemma size_visited_add u (s : gset string) : u ∉ s -> size ({[u]} ∪ s) = S (size s).
Proof. intros H. rewrite size_union by set_solver. by rewrite size_singleton. Qed.

Lemma analyze_page_with_alt_le soup url :
  Page.images_with_alt (_analyze_page soup url) ≤ Page.total_images (_analyze_page soup url).
Proof.
  pose proof (PageFacts.analyze_page_ok soup url) as [Hd Hm Hp Hg Hw].
  pose proof (PageFacts.analyze_page_counts_total soup url) as Ht.
  rewrite Hw, <- Ht. apply PageFacts.count_quality_le.
Qed.

(** A turn of the loop keeps the invariant. *)
Lemma loop_body_inv st :
  loop_cond max_pages st = true -> crawl_inv max_pages st -> crawl_inv max_pages (body st).
Proof.
  intros [(u & rest & Hq) Hv]%loop_cond_true [Hnd Hrv Hsz Hlen Hall Hpg].
  unfold loop_body. rewrite Hq. rewrite Hq in Hlen. simpl in Hlen.
  assert (Hrest : length rest ≤ queue_bound max_pages) by lia.
  assert (Hall' : Forall (fun n => n ≤ queue_bound max_pages)
                         (queue_sizes st ++ [length rest])).
  { apply Forall_app. split; [done|]. by constructor. }
  simpl. case_bool_decide as Hin; [by split|].
  assert (Hfresh : u ∉ requests st).
  { intros Hu. apply Hin. rewrite Hrv. by apply elem_of_list_to_set. }
  assert (Hnd' : NoDup (requests st ++ [u])).
  { apply NoDup_app. split; [done|]. split; [|apply NoDup_singleton].
    intros x Hx ->%list_elem_of_singleton. done. }
  assert (Hrv' : {[u]} ∪ visited st = list_to_set (requests st ++ [u])).
  { rewrite list_to_set_app_L, <- Hrv. simpl.
    rewrite union_empty_r_L. apply union_comm_L. }
  assert (Hsz' : size ({[u]} ∪ visited st) ≤ Z.to_nat max_pages).
  { rewrite size_visited_add by done. lia. }
  destruct (client_get u) as [resp|e]; [|by split].
  destruct (negb _); [by split|].
  match goal with |- crawl_inv _ (discover ?c ?h ?s) =>
    pose proof (discover_links_frame c h s) as (Fv & Fr & Fp);
    pose proof (discover_links_queue c h s Hrest Hall') as [Dq Ds]
  end.
  split; rewrite ?Fv, ?Fr, ?Fp; simpl; try done.
  apply Forall_app. split; [done|]. constructor; [|constructor].
  apply analyze_page_with_alt_le.
Qed.

Lemma crawl_init_inv url : crawl_inv max_pages (crawl_init url).
Proof.
  split; unfold crawl_init; cbn [requests visited to_visit queue_sizes pages_data].
  - constructor.
  - done.
  - rewrite size_empty. lia.
  - unfold queue_bound. simpl. lia.
  - constructor; [|constructor]. unfold queue_bound. lia.
  - constructor.
Qed.

Lemma crawl_loop_inv fuel st : crawl_inv max_pages st -> crawl_inv max_pages (loop fuel st).
Proof.
  revert st. induction fuel as [|fuel IH]; intros st H; simpl; [done|].
  destruct (loop_cond max_pages st) eqn:Hc; [|done].
  by apply IH, loop_body_inv.
Qed.

(** A turn of the loop lowers the potential. *)
Lemma loop_body_potential st :
  loop_cond max_pages st = true -> crawl_inv max_pages st ->
  (potential max_pages (body st) < potential max_pages st)%Z.
Proof.
  intros [(u & rest & Hq) Hv]%loop_cond_true [Hnd Hrv Hsz Hlen Hall Hpg].
  unfold loop_body, potential. rewrite Hq. rewrite Hq in Hlen. simpl in Hlen.
  assert (Hrest : length rest ≤ queue_bound max_pages) by lia.
  assert (Hall' : Forall (fun n => n ≤ queue_bound max_pages)
                         (queue_sizes st ++ [length rest])).
  { apply Forall_app. split; [done|]. by constructor. }
  simpl. case_bool_decide as Hin; simpl; [lia|].
  pose proof (size_visited_add u (visited st) Hin) as Hs.
  destruct (client_get u) as [resp|e]; simpl; [|rewrite Hs; nia].
  destruct (negb _); simpl; [rewrite Hs; nia|].
  match goal with |- context [discover ?c ?h ?s] =>
    pose proof (discover_links_frame c h s) as (Fv & Fr & Fp);
    pose proof (discover_links_queue c h s Hrest Hall') as [Dq Ds]
  end.
  rewrite Fv. simpl. rewrite Hs. unfold queue_bound in Dq. nia.
Qed.

(** With more fuel than potential the loop runs until its condition fails. *)
Lemma crawl_loop_exits fuel st :
  crawl_inv max_pages st -> (potential max_pages st < Z.of_nat fuel)%Z ->
  loop_cond max_pages (loop fuel st) = false.
Proof.
  revert st. induction fuel as [|fuel IH]; intros st Hinv Hpot; simpl.
  - destruct (loop_cond max_pages st) eqn:Hc; [|done].
    apply loop_cond_true in Hc as [_ Hv]. unfold potential in Hpot. nia.
  - destruct (loop_cond max_pages st) eqn:Hc; [|done].
    apply IH; [by apply loop_body_inv|].
    pose proof (loop_body_potential st Hc Hinv). lia.
Qed.

(** The fuel of [analyze_competitor] never cuts a crawl short: the state it
    reads its pages from is one where the [while] condition is false. *)
Theorem crawl_fuel_enough url :
  loop_cond max_pages (loop (crawl_fuel max_pages) (crawl_init url)) = false.
Proof.
  destruct (Z_lt_le_dec 0 max_pages) as [Hpos|Hneg].
  - apply crawl_loop_exits; [apply crawl_init_inv|].
    unfold potential, crawl_fuel, crawl_init. cbn [visited to_visit length].
    rewrite size_empty. nia.
  - unfold crawl_fuel. cbn [crawl_loop]. unfold loop_cond, crawl_init.
    cbn [visited to_visit]. rewrite size_empty.
    apply andb_false_iff. right. apply Z.ltb_ge. lia.
Qed.

End Crawl.


Section Claims.

Variable urlparse : string -> py_result parsed_url.
Variable client_get : string -> py_result response.
Variable float_str : Q -> string.

(** C2, amended. At every turn of the crawl loop, whatever the pages
    answer: no URL was requested twice, the visited set is the set of the
    requested URLs and has at most [max_pages] members (none when
    [max_pages] is negative), and the queue never held more than
    [max_pages * 2] entries (one, the seed, when [max_pages] is below one):
    a link is appended while the queue is shorter than [max_pages * 2], so
    it can reach that length. *)
Theorem crawl_bounds domain max_pages url fuel :
  NoDup (requests (crawl_loop urlparse client_get domain max_pages fuel (crawl_init url)))
  ∧ visited (crawl_loop urlparse client_get domain max_pages fuel (crawl_init url))
    = list_to_set
        (requests (crawl_loop urlparse client_get domain max_pages fuel (crawl_init url)))
  ∧ length (requests (crawl_loop urlparse client_get domain max_pages fuel (crawl_init url)))
    ≤ Z.to_nat max_pages
  ∧ size (visited (crawl_loop urlparse client_get domain max_pages fuel (crawl_init url)))
    ≤ Z.to_nat max_pages
  ∧ Forall (fun n => n ≤ Z.to_nat (Z.max 1 (max_pages * 2)))
      (queue_sizes (crawl_loop urlparse client_get domain max_pages fuel (crawl_init url)))
  ∧ length (to_visit (crawl_loop urlparse client_get domain max_pages fuel (crawl_init url)))
    ≤ Z.to_nat (Z.max 1 (max_pages * 2)).
Proof.
  pose proof (crawl_loop_inv urlparse client_get domain max_pages fuel _
                (crawl_init_inv max_pages url)) as [Hnd Hrv Hsz Hlen Hall Hpg].
  repeat split; try done.
  rewrite Hrv in Hsz. by rewrite size_list_to_set in Hsz.
Qed.

(** C3, amended. In the crawl of [url], a URL that a turn of the loop adds
    to the queue comes from a link of the page just fetched; when that link
    starts with a slash, the URL is the scheme of that page's URL, then
    [://], then the network location of the seed [url], then the link. *)
Theorem relative_links_resolved url seed max_pages fuel u :
  urlparse url = Ok seed ->
  u ∈ to_visit (loop_body urlparse client_get (netloc seed) max_pages
                  (crawl_loop urlparse client_get (netloc seed) max_pages fuel
                              (crawl_init url))) ->
  u ∈ to_visit (crawl_loop urlparse client_get (netloc seed) max_pages fuel
                           (crawl_init url))
  ∨ ∃ current_url rest resp href,
      to_visit (crawl_loop urlparse client_get (netloc seed) max_pages fuel
                           (crawl_init url)) = current_url :: rest
      ∧ client_get current_url = Ok resp
      ∧ href ∈ Dom.find_all_a_href (text resp)
      ∧ if PyStr.startswith "/" href
        then ∃ page, urlparse current_url = Ok page
                     ∧ u = scheme page +:+ "://" +:+ netloc seed +:+ href
        else u = href.
Proof.
  intros _. generalize (crawl_loop urlparse client_get (netloc seed) max_pages fuel
                                   (crawl_init url)).
  intros st Hu. unfold loop_body in Hu.
  destruct (to_visit st) as [|cur rest] eqn:Hq; [rewrite Hq in Hu; by left|].
  simpl in Hu. case_bool_decide; [left; by right|].
  destruct (client_get cur) as [resp|e] eqn:Hget; [|left; by right].
  destruct (negb _); [left; by right|].
  apply discover_links_origin in Hu as [Hu|(href & Hin & Hres & _)]; [left; by right|].
  right. exists cur, rest, resp, href. repeat split; try done.
  unfold resolve_href in Hres. destruct (PyStr.startswith "/" href).
  - destruct (urlparse cur) as [page|e]; simpl in Hres; [|done].
    exists page. split; [done|]. by injection Hres.
  - by injection Hres.
Qed.


End Claims.



(** C2, as the claim states it, fails on the portal with a limit of one
    page: after the front page the queue holds two links, which is
    [max_pages * 2]. *)
Lemma portal_queue_reaches_twice_the_limit :
  Examples.urlparse "https://portal.example/"
  = Ok {| scheme := "https"; netloc := "portal.example" |}
  ∧ to_visit (crawl_loop Examples.urlparse Examples.portal "portal.example" 1
                         (crawl_fuel 1) (crawl_init "https://portal.example/"))
    = ["https://portal.example/a"; "https://portal.example/b"]
  ∧ queue_sizes (crawl_loop Examples.urlparse Examples.portal "portal.example" 1
                            (crawl_fuel 1) (crawl_init "https://portal.example/"))
    = [1; 0; 1; 2]
  ∧ ¬ Forall (fun n => (Z.of_nat n < 1 * 2)%Z)
        (queue_sizes (crawl_loop Examples.urlparse Examples.portal "portal.example" 1
                                 (crawl_fuel 1) (crawl_init "https://portal.example/"))).
Proof.
  repeat split; try (vm_compute; reflexivity).
  intros H. vm_compute in H.
  apply Forall_cons_1 in H as [_ H]. apply Forall_cons_1 in H as [_ H].
  apply Forall_cons_1 in H as [_ H]. apply Forall_cons_1 in H as [H _].
  discriminate H.
Qed.

(** C3, as the claim states it, fails on the blogged site: the link
    [/about] found on [https://blog.example.com/post] is requested on the
    seed's host, not on the host of the page it was found on. *)
Lemma blog_link_resolved_on_seed_host :
  Examples.urlparse "https://example.com/"
  = Ok {| scheme := "https"; netloc := "example.com" |}
  ∧ Examples.urlparse "https://blog.example.com/post"
    = Ok {| scheme := "https"; netloc := "blog.example.com" |}
  ∧ to_visit (discover_links Examples.urlparse "example.com" 3
                "https://blog.example.com/post" ["/about"]
                (set_to_visit [] (crawl_init "https://example.com/")))
    = ["https://example.com/about"]
  ∧ requests (crawl_loop Examples.urlparse Examples.blogged "example.com" 3
                         (crawl_fuel 3) (crawl_init "https://example.com/"))
    = ["https://example.com/"; "https://blog.example.com/post";
       "https://example.com/about"]
  ∧ "https://blog.example.com/about"
    ∉ requests (crawl_loop Examples.urlparse Examples.blogged "example.com" 3
                           (crawl_fuel 3) (crawl_init "https://example.com/")).
Proof.
  repeat split; try (vm_compute; reflexivity).
  intros H. vm_compute in H.
  repeat (apply elem_of_cons in H as [H|H]; [discriminate H|]).
  by apply elem_of_nil in H.
Qed.

(** C3, amended, on the blogged site: the second turn of the loop. *)
Lemma relative_links_witness :
  "https://example.com/about"
    ∈ to_visit (crawl_loop Examples.urlparse Examples.blogged "example.com" 3 1
                           (crawl_init "https://example.com/"))
  ∨ ∃ current_url rest resp href,
      to_visit (crawl_loop Examples.urlparse Examples.blogged "example.com" 3 1
                           (crawl_init "https://example.com/")) = current_url :: rest
      ∧ Examples.blogged current_url = Ok resp
      ∧ href ∈ Dom.find_all_a_href (text resp)
      ∧ if PyStr.startswith "/" href
        then ∃ page, Examples.urlparse current_url = Ok page
                     ∧ "https://example.com/about"
                       = scheme page +:+ "://" +:+ "example.com" +:+ href
        else "https://example.com/about" = href.
Proof.
  apply (relative_links_resolved Examples.urlparse Examples.blogged
           "https://example.com/" {| scheme := "https"; netloc := "example.com" |}
           3 1 "https://example.com/about").
  - vm_compute. reflexivity.
  - vm_compute. left.
Defined.

End CrawlFacts.

(** * Ranking, opportunities and failures *)

Module CompareFacts.

Import CompetitorAnalysis Spec.

Lemma insert_desc_perm x l : insert_desc x l ≡ₚ x :: l.
Proof.
  induction l as [|y t IH]; simpl; [done|].
  destruct (Qle_bool y x); [done|]. rewrite IH. apply Permutation_swap.
Qed.

(** [sort(reverse=True)] keeps the scores and puts them in descending
    order. *)
Lemma sort_reverse_perm l : sort_reverse l ≡ₚ l.
Proof.
  induction l as [|x l IH]; simpl; [done|].
  rewrite insert_desc_perm. by rewrite IH.
Qed.

Lemma insert_desc_descending x l : descending l -> descending (insert_desc x l).
Proof.
  unfold descending. induction 1 as [|y t Hs IH Hall]; simpl.
  - repeat constructor.
  - destruct (Qle_bool y x) eqn:Hle.
    + apply Qle_bool_iff in Hle. constructor; [by constructor|].
      constructor; [done|]. eapply Forall_impl; [exact Hall|].
      intros b Hb. simpl in Hb. lra.
    + assert (Hxy : (x < y)%Q).
      { apply Qnot_le_lt. intros H. apply Qle_bool_iff in H. congruence. }
      constructor; [done|]. rewrite insert_desc_perm.
      constructor; [lra|done].
Qed.

Lemma sort_reverse_descending l : descending (sort_reverse l).
Proof.
  induction l as [|x l IH]; simpl; [constructor|]. by apply insert_desc_descending.
Qed.

Lemma count_above_insert x y l : count_above x (insert_desc y l) = count_above x (y :: l).
Proof.
  induction l as [|z t IH]; simpl; [done|].
  destruct (Qle_bool z y); simpl; [done|]. rewrite IH. simpl. lia.
Qed.

Lemma count_above_sort x l : count_above x (sort_reverse l) = count_above x l.
Proof.
  induction l as [|y l IH]; simpl; [done|].
  rewrite count_above_insert. simpl. by rewrite IH.
Qed.

Lemma count_above_none x l : Forall (fun b => (b <= x)%Q) l -> count_above x l = 0.
Proof.
  induction 1 as [|y t Hy _ IH]; simpl; [done|].
  destruct (Qlt_le_dec x y); [exfalso; lra|done].
Qed.

(** In a descending list, the first place of a score is the number of
    scores above it. *)
Lemma index_descending x l :
  descending l -> Exists (fun y => (y == x)%Q) l -> index x l = Some (count_above x l).
Proof.
  unfold descending. induction 1 as [|y t Hs IH Hall]; intros Hex; simpl.
  - by apply Exists_nil in Hex.
  - destruct (Qeq_bool y x) eqn:He.
    + apply Qeq_bool_iff in He.
      rewrite count_above_none.
      * destruct (Qlt_le_dec x y); [exfalso; lra|done].
      * eapply Forall_impl; [exact Hall|]. intros b Hb. simpl in Hb. lra.
    + assert (Hne : ¬ (y == x)%Q).
      { intros H. apply Qeq_bool_iff in H. congruence. }
      apply Exists_cons in Hex as [Hy|Ht]; [done|].
      rewrite (IH Ht). simpl.
      assert (Hle : (x <= y)%Q).
      { apply Exists_exists in Ht as (z & Hz & Hzx).
        rewrite Forall_forall in Hall. specialize (Hall z Hz). simpl in Hall. lra. }
      destruct (Qlt_le_dec x y) as [|Hyx]; [done|].
      exfalso. apply Hne. lra.
Qed.

Lemma index_sort_reverse x l :
  index x (sort_reverse (x :: l)) = Some (count_above x l).
Proof.
  rewrite index_descending.
  - rewrite count_above_sort. simpl. destruct (Qlt_le_dec x x); [exfalso; lra|done].
  - apply sort_reverse_descending.
  - rewrite sort_reverse_perm. apply Exists_cons. by left.
Qed.



Section Services.

Variable urlparse : string -> py_result parsed_url.
Variable client_get : string -> py_result response.
Variable float_str : Q -> string.
Variable findall_url : string -> list string.


(** The comparison never fails: your score is among the sorted scores. *)
Lemma make_comparison_ok your_url your_result competitor_results :
  ∃ c, make_comparison float_str your_url your_result competitor_results = Ok c
       ∧ your_rank c
         = count_above (Site.compliance_score your_result)
                       (get_compliance_score <$> competitor_results) + 1
       ∧ advantage_areas c
         = (fold_left (compare_one float_str (Site.compliance_score your_result))
                      competitor_results ([], [])).1
       ∧ improvement_areas c
         = (fold_left (compare_one float_str (Site.compliance_score your_result))
                      competitor_results ([], [])).2
       ∧ Forall2
           (fun entry summary =>
              Summary.url summary = get_competitor_url entry
              ∧ Summary.compliance_score summary = get_compliance_score entry)
           competitor_results (competitors c).
Proof.
  unfold make_comparison. cbv zeta. rewrite index_sort_reverse.
  eexists. split; [reflexivity|]. cbn [your_rank advantage_areas improvement_areas competitors].
  repeat split.
  induction competitor_results as [|entry entries IH]; simpl; by constructor.
Qed.


(** C8. [_identify_opportunities] writes the SEO-advantage note exactly when
    the good ratio is below 50 (so none at 50.0 and one at 49.9), the
    medium-impact accessibility-leadership note exactly when it is below 80,
    and always ends with the note on using the product: the list is never
    empty. *)
Theorem opportunity_thresholds pages_data domain :
  ((good_ratio pages_data < 50)%Q ->
     count_type "seo_advantage" (_identify_opportunities float_str pages_data domain) = 1)
  ∧ ((50 <= good_ratio pages_data)%Q ->
     count_type "seo_advantage" (_identify_opportunities float_str pages_data domain) = 0)
  ∧ ((good_ratio pages_data == 50)%Q ->
     count_type "seo_advantage" (_identify_opportunities float_str pages_data domain) = 0)
  ∧ ((good_ratio pages_data == 499 # 10)%Q ->
     count_type "seo_advantage" (_identify_opportunities float_str pages_data domain) = 1)
  ∧ ((good_ratio pages_data < 80)%Q ->
     count_type "accessibility_leadership"
                (_identify_opportunities float_str pages_data domain) = 1
     ∧ ∃ o, o ∈ _identify_opportunities float_str pages_data domain
            ∧ Opportunity.type o = "accessibility_leadership"
            ∧ Opportunity.impact o = "medium")
  ∧ ((80 <= good_ratio pages_data)%Q ->
     count_type "accessibility_leadership"
                (_identify_opportunities float_str pages_data domain) = 0)
  ∧ (∃ o, last (_identify_opportunities float_str pages_data domain) = Some o
          ∧ Opportunity.type o = "image_search_ranking"
          ∧ Opportunity.action o
            = "Use TheAltText to generate SEO-optimized alt text for all product images")
  ∧ count_type "image_search_ranking"
               (_identify_opportunities float_str pages_data domain) = 1
  ∧ _identify_opportunities float_str pages_data domain ≠ [].
Proof.
  unfold _identify_opportunities. cbv zeta.
  destruct (Qlt_le_dec (good_ratio pages_data) 50) as [H50|H50];
    destruct (Qlt_le_dec (good_ratio pages_data) 80) as [H80|H80];
    try (exfalso; lra).
  all: split; [intros H; first [exfalso; lra | vm_compute; reflexivity]|].
  all: split; [intros H; first [exfalso; lra | vm_compute; reflexivity]|].
  all: split; [intros H; first [exfalso; lra | vm_compute; reflexivity]|].
  all: split; [intros H; first [exfalso; lra | vm_compute; reflexivity]|].
  all: split;
    [intros H; first [exfalso; lra
                     | split; [vm_compute; reflexivity|];
                       first [ eexists; split;
                                 [apply list_elem_of_lookup; exists 0; reflexivity
                                 |split; reflexivity]
                             | eexists; split;
                                 [apply list_elem_of_lookup; exists 1; reflexivity
                                 |split; reflexivity] ]]|].
  all: split; [intros H; first [exfalso; lra | vm_compute; reflexivity]|].
  all: split; [eexists; split; [apply last_snoc|split; reflexivity]|].
  all: split; [vm_compute; reflexivity|].
  all: intros Hnil; apply (f_equal length) in Hnil; rewrite length_app in Hnil;
    simpl in Hnil; lia.
Qed.

End Services.


(** C8, on a site with 1 good image of 2 and on one with 499 of 1000. *)
Lemma opportunity_thresholds_witness :
  count_type "seo_advantage"
    (_identify_opportunities Examples.float_str [Examples.counts 2 1 0 1 1] "shop.example")
  = 0
  ∧ count_type "seo_advantage"
      (_identify_opportunities Examples.float_str
         [Examples.counts 1000 499 0 501 499] "shop.example")
    = 1
  ∧ count_type "accessibility_leadership"
      (_identify_opportunities Examples.float_str [Examples.counts 2 1 0 1 1] "shop.example")
    = 1.
Proof.
  destruct (opportunity_thresholds Examples.float_str
              [Examples.counts 2 1 0 1 1] "shop.example")
    as (_ & _ & Hhalf & _ & Hlead & _).
  destruct (opportunity_thresholds Examples.float_str
              [Examples.counts 1000 499 0 501 499] "shop.example")
    as (_ & _ & _ & Hbelow & _).
  split; [|split].
  - apply Hhalf. vm_compute. reflexivity.
  - apply Hbelow. vm_compute. reflexivity.
  - apply Hlead. vm_compute. reflexivity.
Defined.

(** [analyze_competitor] raises only when the seed URL does not parse:
    whatever the pages answer, the crawl gives a result. *)
Lemma analyze_competitor_returns urlparse client_get float_str url max_pages seed :
  urlparse url = Ok seed ->
  ∃ r, analyze_competitor urlparse client_get float_str url max_pages = Ok r.
Proof.
  intros H. unfold analyze_competitor. rewrite H. eexists. reflexivity.
Qed.



End CompareFacts.

(** * The filename pattern and the strings it accepts *)

Module RegexFacts.
Import Regex RegexSpec.

Lemma append_cons c s t : String c s +:+ t = String c (s +:+ t).
Proof. reflexivity. Qed.

Lemma append_nil_l s : "" +:+ s = s.
Proof. reflexivity. Qed.

Lemma append_nil_r s : s +:+ "" = s.
Proof. induction s as [|c s IH]; [done|]. by rewrite append_cons, IH. Qed.


Lemma append_eq_nil s1 s2 : s1 +:+ s2 = "" -> s1 = "" ∧ s2 = "".
Proof. destruct s1; [done|]. rewrite append_cons. discriminate. Qed.

Lemma lang_eps_inv s : lang Eps s -> s = "".
Proof. by inversion 1. Qed.

Lemma lang_void_inv s : ¬ lang Void s.
Proof. inversion 1. Qed.

Lemma lang_sat_inv p s : lang (Sat p) s -> ∃ c, s = String c "" ∧ p c = true.
Proof. inversion 1; subst; eauto. Qed.

Lemma lang_seq_inv r1 r2 s :
  lang (Seq r1 r2) s -> ∃ s1 s2, s = s1 +:+ s2 ∧ lang r1 s1 ∧ lang r2 s2.
Proof. inversion 1; subst; eauto. Qed.

Lemma lang_alt_inv r1 r2 s : lang (Alt r1 r2) s -> lang r1 s ∨ lang r2 s.
Proof. inversion 1; subst; auto. Qed.

Lemma nullable_lang r : nullable r = true <-> lang r "".
Proof.
  induction r as [| |p|r1 IH1 r2 IH2|r1 IH1 r2 IH2|r IH]; simpl.
  - split; [done|]. intros H. by apply lang_void_inv in H.
  - split; [constructor|done].
  - split; [done|]. intros (c & H & _)%lang_sat_inv. discriminate.
  - rewrite andb_true_iff, IH1, IH2. split.
    + intros [H1 H2]. change "" with ("" +:+ ""). by constructor.
    + intros (s1 & s2 & Hs & H1 & H2)%lang_seq_inv.
      symmetry in Hs. apply append_eq_nil in Hs as [-> ->]. done.
  - rewrite orb_true_iff, IH1, IH2. split.
    + intros [H|H]; [by apply lang_alt_l|by apply lang_alt_r].
    + apply lang_alt_inv.
  - split; [constructor|done].
Qed.

Lemma lang_star_cons_inv r c s :
  lang (Star r) (String c s) ->
  ∃ s1 s2, s = s1 +:+ s2 ∧ lang r (String c s1) ∧ lang (Star r) s2.
Proof.
  intros H. remember (Star r) as r' eqn:Hr. remember (String c s) as t eqn:Ht.
  revert c s Ht.
  induction H as [| | | | | |r0 s1 s2 H1 _ H2 IH2]; intros a t Ht; try discriminate.
  injection Hr as ->.
  destruct s1 as [|c1 s1].
  - rewrite append_nil_l in Ht. by apply IH2.
  - rewrite append_cons in Ht. injection Ht as Hc Hs. subst. eauto.
Qed.

Lemma deriv_lang c r s : lang (deriv c r) s <-> lang r (String c s).
Proof.
  revert s. induction r as [| |p|r1 IH1 r2 IH2|r1 IH1 r2 IH2|r IH]; intros s; simpl.
  - split; intros H; by apply lang_void_inv in H.
  - split; [intros H; by apply lang_void_inv in H|].
    intros H%lang_eps_inv. discriminate.
  - destruct (p c) eqn:Hp; split.
    + intros ->%lang_eps_inv. by constructor.
    + intros (c' & [= <- ->] & _)%lang_sat_inv. constructor.
    + intros H. by apply lang_void_inv in H.
    + intros (c' & [= <- ->] & Hc)%lang_sat_inv. congruence.
  - assert (Hseq : lang (Seq (deriv c r1) r2) s -> lang (Seq r1 r2) (String c s)).
    { intros (s1 & s2 & -> & H1 & H2)%lang_seq_inv.
      apply IH1 in H1. rewrite <- append_cons. by constructor. }
    assert (Hinv : lang (Seq r1 r2) (String c s) ->
                   lang (Seq (deriv c r1) r2) s ∨ (lang r1 "" ∧ lang r2 (String c s))).
    { intros (s1 & s2 & Hs & H1 & H2)%lang_seq_inv.
      destruct s1 as [|c1 s1].
      - rewrite append_nil_l in Hs. right. by subst.
      - rewrite append_cons in Hs. injection Hs as Hc Hs. subst. left.
        constructor; [by apply IH1|done]. }
    destruct (nullable r1) eqn:Hn.
    + split.
      * intros [H|H]%lang_alt_inv; [by apply Hseq|].
        rewrite <- (append_nil_l (String c s)). constructor.
        -- by apply nullable_lang.
        -- by apply IH2.
      * intros H. apply Hinv in H as [H|[_ H]]; [by apply lang_alt_l|].
        apply lang_alt_r. by apply IH2.
    + split; [apply Hseq|].
      intros H. apply Hinv in H as [H|[H _]]; [done|].
      apply nullable_lang in H. congruence.
  - split.
    + intros [H|H]%lang_alt_inv; [apply lang_alt_l, IH1|apply lang_alt_r, IH2]; done.
    + intros [H|H]%lang_alt_inv; [apply lang_alt_l, IH1|apply lang_alt_r, IH2]; done.
  - split.
    + intros (s1 & s2 & -> & H1 & H2)%lang_seq_inv.
      apply IH in H1. rewrite <- append_cons. by constructor.
    + intros H. apply lang_star_cons_inv in H as (s1 & s2 & -> & H1 & H2).
      constructor; [by apply IH|done].
Qed.

(** The matcher decides the denotation. *)
Lemma fullmatch_lang r s : fullmatch r s = true <-> lang r s.
Proof.
  revert r. induction s as [|c s IH]; intros r; simpl.
  - apply nullable_lang.
  - rewrite IH. apply deriv_lang.
Qed.



Lemma lang_ilit e x : lang (ilit e) x <-> PyStr.lower x = e.
Proof.
  revert x. induction e as [|c e IH]; intros x; simpl.
  - split.
    + by intros ->%lang_eps_inv.
    + destruct x; [constructor|discriminate].
  - split.
    + intros (s1 & s2 & -> & (a & -> & Ha)%lang_sat_inv & H2%IH)%lang_seq_inv.
      rewrite append_cons, append_nil_l. unfold PyStr.lower in *. simpl.
      apply Ascii.eqb_eq in Ha. by rewrite Ha, H2.
    + destruct x as [|a x]; [discriminate|]. unfold PyStr.lower. simpl.
      intros [= Ha Hx]. change (String a x) with (String a "" +:+ x).
      constructor; [|by apply IH].
      constructor. by apply Ascii.eqb_eq.
Qed.

Lemma lang_alts_ilit exts x : lang (alts (map ilit exts)) x <-> PyStr.lower x ∈ exts.
Proof.
  induction exts as [|e exts IH]; simpl.
  - split; [intros H; by apply lang_void_inv in H|]. intros H. by apply elem_of_nil in H.
  - rewrite elem_of_cons, <- IH, <- lang_ilit. split.
    + apply lang_alt_inv.
    + intros [H|H]; [by apply lang_alt_l|by apply lang_alt_r].
Qed.


End RegexFacts.

(** * Alt text verdicts of the two services *)

Module AltFacts.

Import CompetitorAnalysis RegexSpec RegexFacts SiteSpec WcagSpec.




Lemma filename_re_mono exts exts' s :
  exts ⊆ exts' ->
  Regex.match_anchored (Regex.filename_re exts) s = true ->
  Regex.match_anchored (Regex.filename_re exts') s = true.
Proof.
  intros Hsub. unfold Regex.match_anchored, Regex.filename_re. rewrite !fullmatch_lang.
  intros (w & tail & -> & Hw & Ht)%lang_seq_inv. constructor; [|done].
  apply lang_seq_inv in Hw as (stem & rest & -> & Hstem & Hrest). constructor; [done|].
  apply lang_seq_inv in Hrest as (dot & ext & -> & Hdot & Hext). constructor; [done|].
  apply lang_alts_ilit. apply lang_alts_ilit in Hext. by apply Hsub.
Qed.

Lemma assess_poor_inv alt src :
  (_assess_alt_quality alt src).1 = poor ->
  Regex.match_anchored (Regex.filename_re filename_exts) alt = true
  ∨ PyStr.in_list (PyStr.strip (PyStr.lower alt)) generic = true.
Proof.
  unfold _assess_alt_quality.
  destruct (Regex.match_anchored _ alt) eqn:Hf; [by left|].
  destruct (PyStr.in_list _ generic) eqn:Hg; [by right|].
  destruct (existsb _ _), (String.length alt <? 10), (250 <? String.length alt),
    (String.eqb alt (PyStr.upper alt)), (5 <? String.length alt);
    vm_compute; discriminate.
Qed.

Lemma check_alt_text_flags alt src longdesc passes :
  Regex.match_anchored (Regex.filename_re WcagChecker.filename_exts) alt = true
  ∨ PyStr.in_list (PyStr.strip (PyStr.lower alt)) WcagChecker.generic_alts = true ->
  ∃ i rest, (WcagChecker.check_alt_text alt src longdesc passes).1 = i :: rest ∧ flagged i.
Proof.
  intros H. unfold WcagChecker.check_alt_text, flagged.
  destruct (Regex.match_anchored _ alt) eqn:Hf;
    destruct (PyStr.in_list _ WcagChecker.generic_alts) eqn:Hg;
    [| | |destruct H; discriminate];
    destruct (find _ _); destruct (_ && _)%bool; destruct (_ && _)%bool; simpl;
    do 2 eexists; (split; [reflexivity|]); simpl; auto.
Qed.

Lemma generic_in_generic_alts x :
  PyStr.in_list x generic = true -> PyStr.in_list x WcagChecker.generic_alts = true.
Proof.
  unfold PyStr.in_list.
  change WcagChecker.generic_alts with (generic ++ ["thumbnail"]).
  rewrite existsb_app. by intros ->.
Qed.

Lemma filename_exts_subseteq : filename_exts ⊆ WcagChecker.filename_exts.
Proof.
  change WcagChecker.filename_exts with (filename_exts ++ ["bmp"; "tiff"]).
  intros x Hx. apply elem_of_app. by left.
Qed.

Lemma compliant_iff_no_issue img level :
  WcagChecker.compliant (WcagChecker._check_img_element img level)
  = bool_decide (WcagChecker.img_issues (WcagChecker._check_img_element img level) = []).
Proof.
  unfold WcagChecker._check_img_element. cbv zeta.
  destruct (match Dom.get img "alt" with Some _ => _ | None => _ end) as [iss ps].
  cbn [WcagChecker.compliant WcagChecker.img_issues].
  match goal with |- bool_decide (length ?l = 0) = _ => destruct l end; done.
Qed.

(** X3. The two services agree on poor alt text: an image whose alt text
    [_assess_alt_quality] rates poor is not compliant for
    [_check_img_element], whose first issue on it is a critical or major
    issue of criterion 1.1.1. *)
Theorem poor_alt_is_flagged img level a src :
  Dom.get img "alt" = Some a ->
  (_assess_alt_quality a src).1 = poor ->
  WcagChecker.compliant (WcagChecker._check_img_element img level) = false
  ∧ ∃ i rest,
      WcagChecker.img_issues (WcagChecker._check_img_element img level) = i :: rest
      ∧ WcagChecker.wcag_criterion i = "1.1.1"
      ∧ (WcagChecker.severity i = "critical" ∨ WcagChecker.severity i = "major").
Proof.
  intros Hget Hpoor.
  assert (Hne : String.eqb a "" = false).
  { destruct a; [vm_compute in Hpoor; discriminate|done]. }
  apply assess_poor_inv in Hpoor.
  assert (Hflag : Regex.match_anchored (Regex.filename_re WcagChecker.filename_exts) a = true
                  ∨ PyStr.in_list (PyStr.strip (PyStr.lower a)) WcagChecker.generic_alts = true).
  { destruct Hpoor as [H|H]; [left|right].
    - by apply (filename_re_mono _ _ _ filename_exts_subseteq).
    - by apply generic_in_generic_alts. }
  assert (Hissues : ∃ i rest,
      WcagChecker.img_issues (WcagChecker._check_img_element img level) = i :: rest
      ∧ flagged i).
  { unfold WcagChecker._check_img_element. rewrite Hget, Hne. cbv zeta.
    rewrite andb_false_l. cbn [negb].
    match goal with |- context [WcagChecker.check_alt_text ?x ?y ?z ?w] =>
      destruct (check_alt_text_flags x y z w Hflag) as (i & rest & Hi & Hfl);
      destruct (WcagChecker.check_alt_text x y z w) as [iss ps]
    end.
    simpl in Hi. subst iss. cbn [WcagChecker.img_issues].
    destruct (_ && _)%bool; destruct (_ || _)%bool; simpl; eauto. }
  destruct Hissues as (i & rest & Hi & Hfl). split.
  - rewrite compliant_iff_no_issue, Hi. done.
  - exists i, rest. split; [done|]. apply Hfl.
Qed.






End AltFacts.

(** * What a crawl requests and what its result holds *)

Module TraceFacts.
Import CompetitorAnalysis Spec TraceSpec CrawlFacts PageFacts.

Lemma analyze_img_url results img : Page.url (analyze_img results img) = Page.url results.
Proof.
  unfold analyze_img.
  repeat match goal with
  | |- context [match ?c with _ => _ end] => destruct c
  end; reflexivity.
Qed.

Lemma fold_analyze_url imgs results :
  Page.url (fold_left analyze_img imgs results) = Page.url results.
Proof.
  revert results. induction imgs as [|img imgs IH]; intros results; simpl; [done|].
  by rewrite IH, analyze_img_url.
Qed.

Lemma analyze_page_url soup url : Page.url (_analyze_page soup url) = url.
Proof. unfold _analyze_page. by rewrite fold_analyze_url. Qed.

Section Crawl.
Variable urlparse : string -> py_result parsed_url.
Variable client_get : string -> py_result response.
Variable domain : string.
Variable max_pages : Z.
Variable seed : string.

Abbreviation discover := (discover_links urlparse domain max_pages).
Abbreviation body := (loop_body urlparse client_get domain max_pages).
Abbreviation loop := (crawl_loop urlparse client_get domain max_pages).

Lemma discover_links_on_site cur hrefs st :
  Forall (on_site domain seed) (to_visit st) ->
  Forall (on_site domain seed) (to_visit (discover cur hrefs st)).
Proof.
  intros H. apply Forall_forall. intros u Hu.
  apply (discover_links_origin urlparse domain max_pages) in Hu as [Hu|(h & _ & _ & Hc)].
  - rewrite Forall_forall in H. by apply H.
  - by right.
Qed.

Lemma loop_body_trace st :
  loop_cond max_pages st = true -> crawl_inv max_pages st ->
  trace_inv client_get domain seed st -> trace_inv client_get domain seed (body st).
Proof.
  intros [(u & rest & Hq) Hv]%(loop_cond_true max_pages) [Hnd Hrv _ _ _ _]
         [Hpg Hsub Hqs Hrq Hfirst].
  unfold loop_body. rewrite Hq. rewrite Hq in Hqs, Hfirst.
  apply Forall_cons in Hqs as [Hu Hrest].
  simpl. case_bool_decide as Hin.
  { split; simpl; try done.
    destruct Hfirst as [[Hr [= -> ->]]|Hh]; [|by right].
    exfalso. rewrite Hrv, Hr in Hin. by apply elem_of_empty in Hin. }
  assert (Hrq' : Forall (on_site domain seed) (requests st ++ [u])).
  { apply Forall_app. split; [done|]. by constructor. }
  assert (Hfirst' : (requests st ++ [u] = [] ∧ rest = [seed])
                    ∨ head (requests st ++ [u]) = Some seed).
  { right. destruct Hfirst as [[Hr [= -> ->]]|Hh]; [by rewrite Hr|].
    destruct (requests st); [done|]. done. }
  assert (Hsub' : sublist (Page.url <$> pages_data st) (requests st ++ [u])).
  { by apply sublist_inserts_r. }
  destruct (client_get u) as [resp|e] eqn:Hget; [|by split].
  destruct (negb _) eqn:Hst; [by split|].
  apply negb_false_iff, Z.eqb_eq in Hst.
  match goal with |- trace_inv _ _ _ (discover ?c ?h ?s) =>
    pose proof (discover_links_frame urlparse domain max_pages c h s) as (Fv & Fr & Fp);
    pose proof (discover_links_on_site c h s) as Dq
  end.
  split; rewrite ?Fr, ?Fp; simpl.
  - apply Forall_app. split; [done|]. constructor; [|constructor].
    exists resp. rewrite analyze_page_url. done.
  - rewrite fmap_app. simpl. rewrite analyze_page_url. by apply sublist_app.
  - by apply Dq.
  - done.
  - destruct Hfirst' as [[H _]|H]; [|by right].
    by apply app_eq_nil in H as [_ ?].
Qed.

Lemma crawl_init_trace : trace_inv client_get domain seed (crawl_init seed).
Proof.
  split; simpl; try done.
  - constructor; [by left|constructor].
  - by left.
Qed.

Lemma crawl_loop_trace fuel st :
  crawl_inv max_pages st -> trace_inv client_get domain seed st ->
  trace_inv client_get domain seed (loop fuel st).
Proof.
  revert st. induction fuel as [|fuel IH]; intros st Hi Ht; simpl; [done|].
  destruct (loop_cond max_pages st) eqn:Hc; [|done].
  apply IH; [by apply loop_body_inv|by apply loop_body_trace].
Qed.

Lemma crawl_loop_more fuel extra st :
  loop_cond max_pages (loop fuel st) = false -> loop (fuel + extra) st = loop fuel st.
Proof.
  revert st. induction fuel as [|fuel IH]; intros st H; simpl in *.
  - destruct extra; simpl; [done|]. by rewrite H.
  - destruct (loop_cond max_pages st) eqn:Hc; [by apply IH|done].
Qed.



End Crawl.

Section Results.
Variable urlparse : string -> py_result parsed_url.
Variable client_get : string -> py_result response.
Variable float_str : Q -> string.

(** What a returned result was computed from. *)
Lemma analyze_competitor_inv url max_pages r :
  analyze_competitor urlparse client_get float_str url max_pages = Ok r ->
  ∃ p, urlparse url = Ok p
    ∧ Site.competitor_url r = url
    ∧ Site.competitor_domain r = netloc p
    ∧ Site.page_details r
      = pages_data (crawl_loop urlparse client_get (netloc p) max_pages
                               (crawl_fuel max_pages) (crawl_init url))
    ∧ Site.pages_analyzed r = length (Site.page_details r)
    ∧ Site.total_images r = sum_of Page.total_images (Site.page_details r)
    ∧ Site.images_with_alt r = sum_of Page.images_with_alt (Site.page_details r)
    ∧ Site.images_missing_alt r = sum_of Page.images_missing_alt (Site.page_details r)
    ∧ Site.images_poor_alt r = sum_of Page.images_poor_alt (Site.page_details r)
    ∧ Site.images_good_alt r = sum_of Page.images_good_alt (Site.page_details r)
    ∧ Site.compliance_score r
      = PyNum.round1
          (if 0 <? Site.total_images r
           then PyNum.of_nat (Site.images_with_alt r) / PyNum.of_nat (Site.total_images r) * 100
           else 100)%Q
    ∧ Site.gaps r = _identify_gaps (Site.page_details r)
    ∧ Site.opportunities r
      = _identify_opportunities float_str (Site.page_details r) (netloc p).
Proof.
  unfold analyze_competitor.
  destruct (urlparse url) as [p|e]; [|intros H; discriminate H].
  unfold mbind, py_result_bind, mret, py_result_ret. cbv beta iota zeta.
  intros H. injection H as <-. exists p. repeat split.
Qed.

Lemma page_of_response_ok p :
  TraceSpec.page_of_response client_get p ->
  Page.images_missing_alt p + Page.images_poor_alt p + Page.images_good_alt p
  = Page.total_images p.
Proof.
  intros (resp & _ & _ & ->).
  pose proof (analyze_page_ok (text resp) (Page.url p)) as [Hd _ _ _ _].
  pose proof (analyze_page_counts_total (text resp) (Page.url p)). lia.
Qed.

Lemma sum_of_partition pages :
  Forall (TraceSpec.page_of_response client_get) pages ->
  sum_of Page.images_missing_alt pages + sum_of Page.images_poor_alt pages
  + sum_of Page.images_good_alt pages = sum_of Page.total_images pages.
Proof.
  unfold sum_of. induction 1 as [|p ps Hp _ IH]; simpl; [done|].
  apply page_of_response_ok in Hp. lia.
Qed.

Lemma result_invariants url max_pages r p :
  analyze_competitor urlparse client_get float_str url max_pages = Ok r ->
  urlparse url = Ok p ->
  crawl_inv max_pages (crawl_loop urlparse client_get (netloc p) max_pages
                                  (crawl_fuel max_pages) (crawl_init url))
  ∧ trace_inv client_get (netloc p) url
              (crawl_loop urlparse client_get (netloc p) max_pages
                          (crawl_fuel max_pages) (crawl_init url)).
Proof.
  intros _ _. split.
  - apply crawl_loop_inv, crawl_init_inv.
  - apply crawl_loop_trace; [apply crawl_init_inv|apply crawl_init_trace].
Qed.

(** X5. In every result of [analyze_competitor] the counters of missing,
    poor and good images add up to [total_images]; [pages_analyzed] is the
    length of [page_details] and at most [max_pages] (zero when [max_pages]
    is negative); the totals are the sums over the pages, and the good
    images are at most all images. *)
Theorem site_totals url max_pages r :
  analyze_competitor urlparse client_get float_str url max_pages = Ok r ->
  Site.images_missing_alt r + Site.images_poor_alt r + Site.images_good_alt r
  = Site.total_images r
  ∧ Site.pages_analyzed r = length (Site.page_details r)
  ∧ Site.pages_analyzed r ≤ Z.to_nat max_pages
  ∧ Site.total_images r = sum_of Page.total_images (Site.page_details r)
  ∧ Site.images_good_alt r = sum_of Page.images_good_alt (Site.page_details r)
  ∧ Site.images_good_alt r ≤ Site.total_images r.
Proof.
  intros Hr.
  destruct (analyze_competitor_inv url max_pages r Hr)
    as (p & Hp & _ & _ & Hpages & Hn & Ht & Hw & Hm & Hpo & Hg & _).
  destruct (result_invariants url max_pages r p Hr Hp)
    as [[Hnd Hrv Hsz _ _ _] [Hpg Hsub _ _ _]].
  rewrite <- Hpages in Hpg, Hsub.
  pose proof (sum_of_partition _ Hpg) as Hsum.
  repeat split; try lia; try done.
  rewrite Hn. apply sublist_length in Hsub. rewrite length_fmap in Hsub.
  rewrite Hrv, size_list_to_set in Hsz by done. lia.
Qed.

(** X6. In a result of [analyze_competitor] no two page dicts have the same
    URL, each page dict is the tally [_analyze_page] gives for a response
    with status 200 to its URL, and each of these URLs is the seed or
    contains the domain of the result. *)
Theorem pages_are_fetched_pages url max_pages r :
  analyze_competitor urlparse client_get float_str url max_pages = Ok r ->
  NoDup (Page.url <$> Site.page_details r)
  ∧ Forall (TraceSpec.page_of_response client_get) (Site.page_details r)
  ∧ Forall (TraceSpec.on_site (Site.competitor_domain r) url)
           (Page.url <$> Site.page_details r).
Proof.
  intros Hr.
  destruct (analyze_competitor_inv url max_pages r Hr)
    as (p & Hp & _ & Hd & Hpages & _).
  destruct (result_invariants url max_pages r p Hr Hp)
    as [[Hnd _ _ _ _ _] [Hpg Hsub _ Hrq _]].
  rewrite <- Hpages in Hpg, Hsub. rewrite Hd.
  split; [by eapply sublist_NoDup|]. split; [done|].
  apply Forall_forall. intros u Hu. rewrite Forall_forall in Hrq. apply Hrq.
  by eapply elem_of_sublist.
Qed.

Lemma sum_of_zero (key : Page.t -> nat) pages :
  sum_of key pages = 0 <-> Forall (fun p => key p = 0) pages.
Proof.
  unfold sum_of. induction pages as [|p ps IH]; simpl; [by split|].
  rewrite Forall_cons, <- IH. lia.
Qed.

Lemma identify_gaps_nil pages :
  sum_of Page.images_missing_alt pages = 0 ->
  sum_of Page.images_poor_alt pages = 0 ->
  Forall (fun p => ¬ (Page.images_with_alt p = 0 ∧ 0 < Page.total_images p)) pages ->
  _identify_gaps pages = [].
Proof.
  intros Hm Hp Hz. unfold _identify_gaps. cbv zeta. rewrite Hm, Hp. simpl.
  replace (filter _ pages) with (@nil Page.t); [done|].
  symmetry. induction Hz as [|p ps Hp' _ IH]; [done|].
  rewrite filter_cons. destruct (decide _); [done|]. apply IH.
  - unfold sum_of in *. simpl in Hm. lia.
  - unfold sum_of in *. simpl in Hp. lia.
Qed.

(** X7. A result of [analyze_competitor] without any image has the score
    100 and no gap, and still carries all three opportunities: with no
    image the ratio of good alt text is 0, below both thresholds. *)
Theorem no_image_site url max_pages r :
  analyze_competitor urlparse client_get float_str url max_pages = Ok r ->
  Site.total_images r = 0 ->
  (Site.compliance_score r == 100)%Q
  ∧ Site.gaps r = []
  ∧ Opportunity.type <$> Site.opportunities r
    = ["seo_advantage"; "accessibility_leadership"; "image_search_ranking"].
Proof.
  intros Hr Hzero.
  destruct (analyze_competitor_inv url max_pages r Hr)
    as (p & Hp & _ & _ & Hpages & Hn & Ht & Hw & Hm & Hpo & Hg & Hscore & Hgaps & Hopp).
  destruct (result_invariants url max_pages r p Hr Hp) as [_ [Hpg _ _ _ _]].
  rewrite <- Hpages in Hpg.
  pose proof (sum_of_partition _ Hpg) as Hsum.
  rewrite <- Ht, <- Hm, <- Hpo, <- Hg, Hzero in Hsum.
  split; [|split].
  - rewrite Hscore, Hzero. reflexivity.
  - rewrite Hgaps. apply identify_gaps_nil; [lia|lia|].
    rewrite Hzero in Ht. symmetry in Ht. apply sum_of_zero in Ht.
    eapply Forall_impl; [exact Ht|]. simpl. lia.
  - rewrite Hopp. unfold _identify_opportunities, good_ratio. cbv zeta.
    rewrite <- Ht, <- Hg, Hzero. replace (Site.images_good_alt r) with 0 by lia.
    reflexivity.
Qed.


(** X9. When the seed URL parses and its request raises or answers with a
    status other than 200, [analyze_competitor] still returns: a result
    with no page, no image and the score 100. *)
Theorem unreachable_seed url max_pages p :
  urlparse url = Ok p ->
  (∀ resp, client_get url = Ok resp -> status_code resp ≠ 200%Z) ->
  ∃ r, analyze_competitor urlparse client_get float_str url max_pages = Ok r
       ∧ Site.page_details r = []
       ∧ Site.pages_analyzed r = 0
       ∧ Site.total_images r = 0
       ∧ (Site.compliance_score r == 100)%Q.
Proof.
  intros Hp Hbad.
  destruct (CompareFacts.analyze_competitor_returns urlparse client_get float_str url max_pages p Hp)
    as [r Hr].
  exists r. split; [done|].
  destruct (analyze_competitor_inv url max_pages r Hr)
    as (p' & Hp' & _ & _ & Hpages & Hn & Ht & _ & _ & _ & _ & Hscore & _).
  rewrite Hp in Hp'. injection Hp' as <-.
  assert (Hnil : Site.page_details r = []).
  { rewrite Hpages. unfold crawl_fuel. cbn [crawl_loop].
    destruct (loop_cond max_pages (crawl_init url)) eqn:Hc; [|done].
    assert (Hbody : loop_body urlparse client_get (netloc p) max_pages (crawl_init url)
                    = note_request url (visited_add url (set_to_visit [] (crawl_init url)))).
    { unfold loop_body, crawl_init. cbn [to_visit]. simpl.
      case_bool_decide as Hin; [by apply elem_of_empty in Hin|].
      destruct (client_get url) as [resp|e] eqn:Hget; [|done].
      specialize (Hbad resp eq_refl).
      destruct (status_code resp =? 200)%Z eqn:Hs; [|done].
      apply Z.eqb_eq in Hs. done. }
    rewrite Hbody.
    destruct (Z.to_nat _); simpl; [done|]. done. }
  rewrite Hnil in *. simpl in Hn, Ht. unfold sum_of in Ht. simpl in Ht.
  repeat split; try done. rewrite Hscore, Ht. reflexivity.
Qed.

End Results.

Section Termination.
Variable urlparse : string -> py_result parsed_url.
Variable client_get : string -> py_result response.

Lemma requests_prefix domain max_pages fuel st :
  requests st `prefix_of` requests (crawl_loop urlparse client_get domain max_pages fuel st).
Proof.
  revert st. induction fuel as [|fuel IH]; intros st; simpl; [done|].
  destruct (loop_cond max_pages st); [|done].
  etrans; [|apply IH].
  unfold loop_body. destruct (to_visit st) as [|u rest]; [done|].
  simpl. case_bool_decide; [done|].
  destruct (client_get u) as [resp|e]; [|by apply prefix_app_r].
  destruct (negb _); [by apply prefix_app_r|].
  match goal with |- _ `prefix_of` requests (discover_links _ _ _ ?c ?h ?s) =>
    destruct (discover_links_frame urlparse domain max_pages c h s) as (_ & -> & _)
  end. simpl. by apply prefix_app_r.
Qed.

(** X10. The [while] loop of [analyze_competitor] ends, whatever the pages
    answer and whatever [max_pages] is: after [crawl_fuel max_pages] turns,
    that is [max_pages * (2 * max_pages + 1) + 2] of them, its condition is
    false, and any number of further turns leaves the state as it is. *)
Theorem crawl_terminates domain max_pages url extra :
  loop_cond max_pages
    (crawl_loop urlparse client_get domain max_pages (crawl_fuel max_pages + extra)
                (crawl_init url)) = false
  ∧ crawl_loop urlparse client_get domain max_pages (crawl_fuel max_pages + extra)
               (crawl_init url)
    = crawl_loop urlparse client_get domain max_pages (crawl_fuel max_pages) (crawl_init url).
Proof.
  pose proof (crawl_fuel_enough urlparse client_get domain max_pages url) as Hexit.
  rewrite (crawl_loop_more urlparse client_get domain max_pages _ extra _ Hexit).
  by split.
Qed.

(** X11. At every turn of the crawl, each URL requested so far is the seed
    or contains the domain as a substring; the first request is for the
    seed, and it is made in the first turn when [max_pages] is at least one;
    the URLs of the pages kept so far are, in this order, among the
    requested ones. *)
Theorem requests_stay_on_site domain max_pages url fuel :
  Forall (on_site domain url)
         (requests (crawl_loop urlparse client_get domain max_pages fuel (crawl_init url)))
  ∧ (requests (crawl_loop urlparse client_get domain max_pages fuel (crawl_init url)) = []
     ∨ head (requests (crawl_loop urlparse client_get domain max_pages fuel (crawl_init url)))
       = Some url)
  ∧ ((1 <= max_pages)%Z ->
     head (requests (crawl_loop urlparse client_get domain max_pages (S fuel)
                                (crawl_init url)))
     = Some url)
  ∧ sublist (Page.url <$> pages_data
               (crawl_loop urlparse client_get domain max_pages fuel (crawl_init url)))
            (requests (crawl_loop urlparse client_get domain max_pages fuel (crawl_init url))).
Proof.
  pose proof (crawl_loop_trace urlparse client_get domain max_pages url fuel _
                (crawl_init_inv max_pages url)
                (crawl_init_trace client_get domain url)) as [Hpg Hsub Hq Hrq Hfirst].
  split; [exact Hrq|]. split; [destruct Hfirst as [[-> _]|H]; [by left|by right]|].
  split; [|exact Hsub].
  intros Hmax. clear Hpg Hsub Hq Hrq Hfirst. cbn [crawl_loop].
  replace (loop_cond max_pages (crawl_init url)) with true.
  2:{ unfold loop_cond, crawl_init. cbn [to_visit visited]. rewrite size_empty.
      symmetry. apply andb_true_iff. split; [done|]. apply Z.ltb_lt. lia. }
  set (st1 := loop_body urlparse client_get domain max_pages (crawl_init url)).
  assert (H1 : head (requests st1) = Some url).
  { unfold st1, loop_body, crawl_init. cbn [to_visit]. simpl.
    case_bool_decide as Hin; [by apply elem_of_empty in Hin|].
    destruct (client_get url) as [resp|e]; [|done].
    destruct (negb _); [done|].
    match goal with |- head (requests (discover_links _ _ _ ?c ?h ?s)) = _ =>
      destruct (discover_links_frame urlparse domain max_pages c h s) as (_ & -> & _)
    end. done. }
  destruct (requests_prefix domain max_pages fuel st1) as [more ->].
  destruct (requests st1); [done|]. done.
Qed.

End Termination.

End TraceFacts.

(** * Gaps *)

Module GapFacts.

Import CompetitorAnalysis Spec SiteSpec TraceFacts.

(** X12. [_identify_gaps] reports at most three gaps, and none exactly when
    no image of the pages is missing an alt attribute, none is poor and no
    page with images has zero images with alt text. The gap for such pages
    counts them and lists the URLs of the first five; the gaps for missing
    and for poor alt text carry the two sums and the severities critical
    and major. *)
Theorem gaps_structure pages :
  length (_identify_gaps pages) ≤ 3
  ∧ (_identify_gaps pages = []
     <-> sum_of Page.images_missing_alt pages = 0
         ∧ sum_of Page.images_poor_alt pages = 0
         ∧ Forall (fun p => ¬ zero_coverage p) pages)
  ∧ (∀ g, g ∈ _identify_gaps pages -> Gap.type g = "zero_coverage_pages" ->
       Gap.count g = length (filter zero_coverage pages)
       ∧ Gap.pages g = Some (Page.url <$> take 5 (filter zero_coverage pages))
       ∧ 0 < Gap.count g)
  ∧ (∀ g, g ∈ _identify_gaps pages -> Gap.type g = "missing_alt" ->
       Gap.count g = sum_of Page.images_missing_alt pages ∧ Gap.severity g = "critical")
  ∧ (∀ g, g ∈ _identify_gaps pages -> Gap.type g = "poor_quality" ->
       Gap.count g = sum_of Page.images_poor_alt pages ∧ Gap.severity g = "major").
Proof.
  split; [|split].
  - unfold _identify_gaps. cbv zeta.
    destruct (0 <? _); destruct (0 <? _); destruct (filter _ pages); simpl; lia.
  - split.
    + unfold _identify_gaps. cbv zeta. fold zero_coverage.
      destruct (0 <? sum_of Page.images_missing_alt pages) eqn:Hm;
        destruct (0 <? sum_of Page.images_poor_alt pages) eqn:Hp;
        destruct (filter zero_coverage pages) as [|z zs] eqn:Hz;
        simpl; try discriminate.
      intros _. apply Nat.ltb_ge in Hm, Hp. repeat split; try lia.
      apply Forall_forall. intros p Hin Hzero.
      assert (p ∈ filter zero_coverage pages) by (by apply list_elem_of_filter).
      rewrite Hz in H. by apply elem_of_nil in H.
    + intros (Hm & Hp & Hz). by apply identify_gaps_nil.
  - unfold _identify_gaps. cbv zeta. fold zero_coverage.
    destruct (0 <? sum_of Page.images_missing_alt pages) eqn:Hm;
      destruct (0 <? sum_of Page.images_poor_alt pages) eqn:Hp;
      destruct (filter zero_coverage pages) as [|z zs] eqn:Hz;
      simpl; (split; [|split]); intros g Hg Ht;
      repeat (apply elem_of_cons in Hg as [->|Hg];
              [simpl in Ht; try discriminate Ht; simpl; repeat split; try done; try lia|]);
      try (by apply elem_of_nil in Hg).
Qed.

Lemma analyze_img_decorative_blank results img :
  decorative_blank img ->
  Page.images_good_alt (analyze_img results img) = S (Page.images_good_alt results)
  ∧ Page.images_with_alt (analyze_img results img) = Page.images_with_alt results
  ∧ Page.images_missing_alt (analyze_img results img) = Page.images_missing_alt results
  ∧ Page.images_poor_alt (analyze_img results img) = Page.images_poor_alt results.
Proof.
  intros [Halt Hdec]. unfold analyze_img. cbv zeta. rewrite Halt, Hdec. simpl. lia.
Qed.

Lemma fold_analyze_decorative_blank imgs results :
  Forall decorative_blank imgs ->
  Page.images_good_alt (fold_left analyze_img imgs results)
  = Page.images_good_alt results + length imgs
  ∧ Page.images_with_alt (fold_left analyze_img imgs results) = Page.images_with_alt results
  ∧ Page.images_missing_alt (fold_left analyze_img imgs results)
    = Page.images_missing_alt results
  ∧ Page.images_poor_alt (fold_left analyze_img imgs results) = Page.images_poor_alt results.
Proof.
  intros H. revert results. induction H as [|img imgs Himg _ IH]; intros results; simpl.
  - lia.
  - destruct (IH (analyze_img results img)) as (-> & -> & -> & ->).
    destruct (analyze_img_decorative_blank results img Himg) as (-> & -> & -> & ->). lia.
Qed.

(** X13. A page whose images all are marked decorative and have the empty
    alt text: every image is counted good, none is counted as having alt
    text, so the ratio of good images is 100 while the ratio behind the
    compliance score is 0, and [_identify_gaps] reports the page as a
    critical page with zero coverage, and nothing else. *)
Theorem decorative_only_page soup url :
  Dom.find_all_img soup ≠ [] ->
  Forall decorative_blank (Dom.find_all_img soup) ->
  Page.images_good_alt (_analyze_page soup url) = Page.total_images (_analyze_page soup url)
  ∧ Page.images_with_alt (_analyze_page soup url) = 0
  ∧ (good_ratio [_analyze_page soup url] == 100)%Q
  ∧ (PyNum.of_nat (Page.images_with_alt (_analyze_page soup url))
     / PyNum.of_nat (Page.total_images (_analyze_page soup url)) * 100 == 0)%Q
  ∧ Gap.type <$> _identify_gaps [_analyze_page soup url] = ["zero_coverage_pages"]
  ∧ Gap.severity <$> _identify_gaps [_analyze_page soup url] = ["critical"].
Proof.
  intros Hne Hall.
  pose proof (PageFacts.analyze_page_total soup url) as Ht.
  assert (Hc : Page.images_good_alt (_analyze_page soup url) = length (Dom.find_all_img soup)
               ∧ Page.images_with_alt (_analyze_page soup url) = 0
               ∧ Page.images_missing_alt (_analyze_page soup url) = 0
               ∧ Page.images_poor_alt (_analyze_page soup url) = 0).
  { unfold _analyze_page.
    match goal with |- context [fold_left _ _ ?r0] =>
      destruct (fold_analyze_decorative_blank (Dom.find_all_img soup) r0 Hall)
        as (-> & -> & -> & ->)
    end. done. }
  destruct Hc as (Hg & Hw & Hm & Hp).
  assert (Hpos : 0 < length (Dom.find_all_img soup)).
  { destruct (Dom.find_all_img soup); [done|simpl; lia]. }
  revert Ht Hg Hw Hm Hp. generalize (_analyze_page soup url). intros p Ht Hg Hw Hm Hp.
  split; [lia|]. split; [done|]. split; [|split].
  - unfold good_ratio, percent_of, sum_of. simpl. rewrite Hg, Ht, !Nat.add_0_r.
    rewrite Nat.max_l by lia. unfold PyNum.of_nat.
    set (n := inject_Z _). assert (¬ (n == 0)%Q).
    { unfold n. change 0%Q with (inject_Z 0). rewrite inject_Z_injective. lia. }
    field. done.
  - rewrite Hw. unfold PyNum.of_nat. simpl. unfold Qdiv. rewrite Qmult_0_l. reflexivity.
  - unfold _identify_gaps, sum_of. cbv zeta. simpl. rewrite Hm, Hp. simpl.
    rewrite filter_cons. destruct (decide _) as [_|Hn]; [done|].
    exfalso. apply Hn. lia.
Qed.


End GapFacts.

(** * Ranks and raised exceptions *)

Module RankFacts.

Import CompetitorAnalysis Spec CompareFacts.


Section Services.
Variable urlparse : string -> py_result parsed_url.
Variable client_get : string -> py_result response.
Variable float_str : Q -> string.


Lemma analyze_competitor_raises url max_pages e :
  analyze_competitor urlparse client_get float_str url max_pages = Raise e
  <-> urlparse url = Raise e.
Proof.
  unfold analyze_competitor.
  destruct (urlparse url) as [p|e']; [split; discriminate|].
  split; intros [= ->]; reflexivity.
Qed.

Lemma compare_competitors_raises your_url competitor_urls max_pages_each e :
  compare_competitors urlparse client_get float_str
                      your_url competitor_urls max_pages_each = Raise e
  <-> urlparse your_url = Raise e.
Proof.
  rewrite <- (analyze_competitor_raises your_url max_pages_each).
  unfold compare_competitors.
  destruct (analyze_competitor _ _ _ your_url max_pages_each) as [mine|e'] eqn:Hmine.
  - unfold mbind, py_result_bind, mret, py_result_ret. cbv beta iota zeta.
    destruct (make_comparison_ok float_str your_url mine
                (analyze_each urlparse client_get float_str competitor_urls max_pages_each))
      as (c & -> & _).
    split; discriminate.
  - split; intros [= ->]; reflexivity.
Qed.

(** X15. [analyze_competitor] raises exactly when [urlparse] raises on its
    URL, with that exception; [compare_competitors] raises exactly when
    [urlparse] raises on [your_url], whatever the competitor URLs are; and
    when [your_url] parses it returns with one detailed result per
    competitor URL. *)
Theorem raises_only_on_bad_seed :
  (∀ url max_pages e,
     analyze_competitor urlparse client_get float_str url max_pages = Raise e
     <-> urlparse url = Raise e)
  ∧ (∀ your_url competitor_urls max_pages_each e,
       compare_competitors urlparse client_get float_str
                           your_url competitor_urls max_pages_each = Raise e
       <-> urlparse your_url = Raise e)
  ∧ (∀ your_url competitor_urls max_pages_each p,
       urlparse your_url = Ok p ->
       ∃ res, compare_competitors urlparse client_get float_str
                                  your_url competitor_urls max_pages_each = Ok res
              ∧ length (competitor_detailed_results res) = length competitor_urls).
Proof.
  split; [exact analyze_competitor_raises|]. split; [exact compare_competitors_raises|].
  intros your_url competitor_urls max_pages_each p Hp.
  destruct (analyze_competitor_returns urlparse client_get float_str
              your_url max_pages_each p Hp) as [mine Hmine].
  unfold compare_competitors. rewrite Hmine.
  unfold mbind, py_result_bind, mret, py_result_ret. cbv beta iota zeta.
  destruct (make_comparison_ok float_str your_url mine
              (analyze_each urlparse client_get float_str competitor_urls max_pages_each))
    as (c & -> & _).
  eexists. split; [reflexivity|]. cbn [competitor_detailed_results].
  unfold analyze_each. apply length_fmap.
Qed.

End Services.

End RankFacts.

(** * The report of the WCAG checker *)

Module ReportFacts.

Import WcagChecker WcagSpec.

Ltac known := first [ by left | by (right; left) | by (right; right) ].

Ltac all_known :=
  repeat (apply Forall_app; split); repeat (constructor; [known|]); try constructor.

Ltac split_ifs :=
  repeat match goal with
  | |- context [if ?c then _ else _] => destruct c
  | |- context [match ?o with Some _ => _ | None => _ end] => destruct o
  end.

Lemma check_alt_text_known alt src longdesc passes :
  Forall known_severity (check_alt_text alt src longdesc passes).1.
Proof. unfold check_alt_text. split_ifs; simpl; all_known. Qed.

Lemma check_img_known img level : Forall known_severity (img_issues (_check_img_element img level)).
Proof.
  unfold _check_img_element. cbv zeta.
  destruct (Dom.get img "alt") as [a|].
  - destruct (String.eqb a "" && _)%bool; [split_ifs; simpl; all_known|].
    destruct (negb (String.eqb a "")); [|split_ifs; simpl; all_known].
    pose proof (check_alt_text_known a (Dom.get_or img "src" "")
                  (Dom.get_or img "longdesc" "")
                  ([passed "has_alt"] ++ [passed "alt_not_empty"])) as H.
    destruct (check_alt_text _ _ _ _) as [iss ps]. simpl in H.
    split_ifs; cbn [img_issues];
      repeat (apply Forall_app; split); try done; repeat (constructor; [known|]);
      constructor.
  - split_ifs; simpl; all_known.
Qed.

Lemma check_svg_known svg : Forall known_severity (svg_issues (_check_svg_element svg)).
Proof. unfold _check_svg_element. cbv zeta. split_ifs; simpl; all_known. Qed.

Lemma check_figure_known fig : Forall known_severity (_check_figure_element fig).1.
Proof. unfold _check_figure_element. split_ifs; simpl; all_known. Qed.

Lemma check_input_known inp : Forall known_severity (_check_input_image inp).1.
Proof. unfold _check_input_image. cbv zeta. split_ifs; simpl; all_known. Qed.

Lemma check_area_known area : Forall known_severity (_check_area_element area).1.
Proof. unfold _check_area_element. cbv zeta. split_ifs; simpl; all_known. Qed.

Lemma check_page_level_known soup : Forall known_severity (_check_page_level soup).
Proof. unfold _check_page_level. cbv zeta. split_ifs; simpl; all_known. Qed.

Lemma Forall_concat_fmap {A B} (P : B -> Prop) (f : A -> list B) l :
  (∀ x, Forall P (f x)) -> Forall P (concat (f <$> l)).
Proof.
  intros H. induction l as [|x l IH]; simpl; [constructor|].
  apply Forall_app. split; [apply H|exact IH].
Qed.

Lemma severity_partition issues :
  Forall known_severity issues ->
  length (filter (fun i => severity i = "critical") issues)
  + length (filter (fun i => severity i = "major") issues)
  + length (filter (fun i => severity i = "minor") issues)
  = length issues.
Proof.
  induction 1 as [|i l Hi _ IH]; [done|].
  rewrite !filter_cons.
  destruct (decide (severity i = "critical")) as [H1|H1],
           (decide (severity i = "major")) as [H2|H2],
           (decide (severity i = "minor")) as [H3|H3];
    try (exfalso; congruence); try (exfalso; destruct Hi as [?|[?|?]]; done);
    simpl; lia.
Qed.

Lemma round_half_even_comp x y : (x == y)%Q -> PyNum.round_half_even x = PyNum.round_half_even y.
Proof.
  intros H. unfold PyNum.round_half_even. cbv zeta.
  rewrite (Qfloor_comp x y H).
  replace (x - inject_Z (Qfloor y) ?= 1 # 2)%Q with (y - inject_Z (Qfloor y) ?= 1 # 2)%Q; [done|].
  apply Qcompare_comp; [|reflexivity]. rewrite H. reflexivity.
Qed.

Lemma round1_comp x y : (x == y)%Q -> (PyNum.round1 x == PyNum.round1 y)%Q.
Proof.
  intros H. unfold PyNum.round1.
  rewrite (round_half_even_comp (x * 10) (y * 10)); [reflexivity|].
  rewrite H. reflexivity.
Qed.

Section Services.
Variable client_get : string -> py_result response.
Variable findall_url : string -> list string.

Lemma check_url_done url wcag_level r :
  check_url client_get findall_url url wcag_level = Ok (check_done r) ->
  ∃ resp, client_get url = Ok resp
    ∧ Report.url r = url
    ∧ Report.total_issues r = length (all_issues (text resp) wcag_level)
    ∧ Report.total_passes r = length (all_passes (text resp) wcag_level)
    ∧ Report.total_checks_performed r = Report.total_issues r + Report.total_passes r
    ∧ Report.compliance_score r
      = PyNum.round1 (raw_score (Report.total_passes r) (Report.total_issues r))
    ∧ Report.status r = status_of (raw_score (Report.total_passes r) (Report.total_issues r))
    ∧ Report.critical_issues r
      = length (filter (fun i => severity i = "critical") (all_issues (text resp) wcag_level))
    ∧ Report.major_issues r
      = length (filter (fun i => severity i = "major") (all_issues (text resp) wcag_level))
    ∧ Report.minor_issues r
      = length (filter (fun i => severity i = "minor") (all_issues (text resp) wcag_level))
    ∧ Report.issues_by_criterion r = by_criterion (all_issues (text resp) wcag_level)
    ∧ Report.page_level_issues r = _check_page_level (text resp)
    ∧ Report.total_images r = length (Dom.find_all_img (text resp))
    ∧ Report.total_svgs r = length (Dom.find_all_svg (text resp))
    ∧ length (Report.image_results r) = Report.total_images r + Report.total_svgs r.
Proof.
  unfold check_url. destruct (client_get url) as [resp|e]; [|discriminate].
  unfold mret, py_result_ret. cbv zeta. intros [= <-]. exists resp.
  cbn [Report.url Report.total_issues Report.total_passes Report.total_checks_performed
       Report.compliance_score Report.status Report.critical_issues Report.major_issues
       Report.minor_issues Report.issues_by_criterion Report.page_level_issues
       Report.total_images Report.total_svgs Report.image_results].
  unfold all_issues, all_passes, raw_score, status_of.
  rewrite <- !list_fmap_compose.
  repeat split.
  rewrite length_app, !length_fmap. done.
Qed.

Lemma all_issues_known soup level : Forall known_severity (all_issues soup level).
Proof.
  unfold all_issues. repeat (apply Forall_app; split).
  - apply Forall_concat_fmap. intros. apply check_img_known.
  - apply Forall_concat_fmap. intros. apply check_svg_known.
  - apply Forall_concat_fmap. intros. apply check_figure_known.
  - apply Forall_concat_fmap. intros. apply check_input_known.
  - apply Forall_concat_fmap. intros. apply check_area_known.
  - apply check_page_level_known.
Qed.

Lemma raw_score_range passes issues : (0 <= raw_score passes issues <= 100)%Q.
Proof.
  unfold raw_score. destruct (0 <? issues + passes) eqn:H; [|lra].
  apply Nat.ltb_lt in H. apply RoundingFacts.percent_range; lia.
Qed.

(** X16. In every report of [check_url]: the checks performed are the
    passes plus the issues; the critical, major and minor issues add up to
    all issues; the page-level issues are among them; there is one image
    result per [img] and per [svg]; the score lies between 0 and 100, and
    is 100 when there is no issue. *)
Theorem report_counts url wcag_level r :
  check_url client_get findall_url url wcag_level = Ok (check_done r) ->
  Report.total_checks_performed r = Report.total_passes r + Report.total_issues r
  ∧ Report.critical_issues r + Report.major_issues r + Report.minor_issues r
    = Report.total_issues r
  ∧ length (Report.page_level_issues r) ≤ Report.total_issues r
  ∧ length (Report.image_results r) = Report.total_images r + Report.total_svgs r
  ∧ (0 <= Report.compliance_score r <= 100)%Q
  ∧ (Report.total_issues r = 0 -> (Report.compliance_score r == 100)%Q).
Proof.
  intros (resp & _ & _ & Hi & Hp & Ht & Hs & _ & Hc & Hma & Hmi & _ & Hpl & _ & _ & Hlen)%check_url_done.
  split; [lia|]. split.
  { rewrite Hc, Hma, Hmi, Hi. apply severity_partition, all_issues_known. }
  split.
  { rewrite Hpl, Hi. unfold all_issues. rewrite !length_app. lia. }
  split; [done|]. split.
  { rewrite Hs. apply RoundingFacts.round1_range, raw_score_range. }
  intros Hz. rewrite Hs, Hz. unfold raw_score. simpl.
  destruct (0 <? Report.total_passes r) eqn:Hpos; [|reflexivity].
  apply Nat.ltb_lt in Hpos.
  assert (E : (PyNum.of_nat (Report.total_passes r) / PyNum.of_nat (Report.total_passes r) * 100
               == 100)%Q).
  { unfold PyNum.of_nat. set (n := inject_Z _).
    assert (¬ (n == 0)%Q).
    { unfold n. change 0%Q with (inject_Z 0). rewrite inject_Z_injective. lia. }
    field. done. }
  rewrite (round1_comp _ _ E). reflexivity.
Qed.

End Services.

Lemma of_nat_pos n : 0 < n -> (0 < PyNum.of_nat n)%Q.
Proof.
  intros H. unfold PyNum.of_nat. change 0%Q with (inject_Z 0). rewrite <- Zlt_Qlt. lia.
Qed.

(** A percentage reaches [k] when the part is at least [k] hundredths of
    the whole. *)
Lemma percent_at_least (k : Z) (p t : nat) :
  0 < t ->
  (inject_Z k <= PyNum.of_nat p / PyNum.of_nat t * 100)%Q
  <-> (k * Z.of_nat t <= 100 * Z.of_nat p)%Z.
Proof.
  intros Ht. pose proof (of_nat_pos t Ht) as Hb.
  unfold PyNum.of_nat in *.
  rewrite Zle_Qle, !inject_Z_mult.
  set (a := inject_Z (Z.of_nat p)) in *. set (b := inject_Z (Z.of_nat t)) in *.
  set (c := inject_Z k). change (inject_Z 100) with 100%Q.
  assert (E : (a / b * 100 * b == 100 * a)%Q) by (field; lra).
  split; intros H.
  - rewrite <- E. apply Qmult_le_compat_r; [done|lra].
  - rewrite <- E in H. apply Qmult_lt_0_le_reg_r in H; done.
Qed.

Section Status.
Variable client_get : string -> py_result response.
Variable findall_url : string -> list string.

(** X17. The status of a report in terms of its counts: compliant exactly
    when the passes are at least 19 times the issues (a score of 95 or
    more, before rounding), partial when they are below that but three
    times the passes are at least seven times the issues (70 or more), and
    non compliant otherwise. *)
Theorem status_thresholds url wcag_level r :
  check_url client_get findall_url url wcag_level = Ok (check_done r) ->
  (Report.status r = "compliant"
   <-> 19 * Report.total_issues r ≤ Report.total_passes r)
  ∧ (Report.status r = "partial"
     <-> Report.total_passes r < 19 * Report.total_issues r
         ∧ 7 * Report.total_issues r ≤ 3 * Report.total_passes r)
  ∧ (Report.status r = "non_compliant"
     <-> 3 * Report.total_passes r < 7 * Report.total_issues r).
Proof.
  intros (resp & _ & _ & _ & _ & _ & _ & Hst & _)%check_url_done.
  rewrite Hst. unfold status_of, raw_score.
  set (p := Report.total_passes r). set (i := Report.total_issues r).
  destruct (0 <? i + p) eqn:Hpos.
  - apply Nat.ltb_lt in Hpos.
    pose proof (percent_at_least 95 p (i + p) Hpos) as H95.
    pose proof (percent_at_least 70 p (i + p) Hpos) as H70.
    change (inject_Z 95) with 95%Q in H95. change (inject_Z 70) with 70%Q in H70.
    destruct (Qlt_le_dec _ 95) as [L95|G95]; [destruct (Qlt_le_dec _ 70) as [L70|G70]|].
    + assert (¬ (70 * Z.of_nat (i + p) <= 100 * Z.of_nat p)%Z)
        by (intros H; apply H70 in H; lra).
      repeat split; intros; try discriminate; try lia.
    + apply H70 in G70.
      assert (¬ (95 * Z.of_nat (i + p) <= 100 * Z.of_nat p)%Z)
        by (intros H; apply H95 in H; lra).
      repeat split; intros; try discriminate; try lia.
    + apply H95 in G95. repeat split; intros; try discriminate; try lia.
  - apply Nat.ltb_ge in Hpos.
    destruct (Qlt_le_dec 100 95) as [L|_]; [exfalso; lra|].
    repeat split; intros; try discriminate; try lia.
Qed.

(** X18. A fetched page without [img], [svg], [figure], image input and
    [area]: the report has no pass, its issues are the page-level ones, and
    it is compliant with the score 100 when there is none of them, non
    compliant with the score 0 as soon as there is one. *)
Theorem page_without_elements url wcag_level resp :
  client_get url = Ok resp ->
  Dom.find_all_img (text resp) = [] ->
  Dom.find_all_svg (text resp) = [] ->
  Dom.find_all_figure (text resp) = [] ->
  Dom.find_all_input_image (text resp) = [] ->
  Dom.find_all_area (text resp) = [] ->
  ∃ r, check_url client_get findall_url url wcag_level = Ok (check_done r)
    ∧ Report.total_passes r = 0
    ∧ Report.total_issues r = length (_check_page_level (text resp))
    ∧ (_check_page_level (text resp) = [] ->
       (Report.compliance_score r == 100)%Q ∧ Report.status r = "compliant")
    ∧ (_check_page_level (text resp) ≠ [] ->
       (Report.compliance_score r == 0)%Q ∧ Report.status r = "non_compliant").
Proof.
  intros Hget Himg Hsvg Hfig Hinp Harea.
  destruct (check_url client_get findall_url url wcag_level) as [[e|r]|e] eqn:Hc;
    try (unfold check_url in Hc; rewrite Hget in Hc; discriminate Hc).
  exists r. split; [done|].
  destruct (check_url_done client_get findall_url url wcag_level r Hc)
    as (resp' & Hget' & _ & Hi & Hp & _ & Hs & Hst & _).
  rewrite Hget in Hget'. injection Hget' as <-.
  unfold all_issues in Hi. unfold all_passes in Hp.
  rewrite Himg, Hsvg, Hfig, Hinp, Harea in Hi, Hp. simpl in Hi, Hp.
  split; [done|]. split; [done|].
  rewrite Hs, Hst, Hp, Hi. unfold raw_score, status_of. rewrite Nat.add_0_r.
  split.
  - intros ->. simpl. split; [reflexivity|done].
  - intros Hne. destruct (_check_page_level (text resp)) as [|i l]; [done|].
    cbn [length]. replace (0 <? S (length l)) with true by done.
    assert (E : (PyNum.of_nat 0 / PyNum.of_nat (S (length l)) * 100 == 0)%Q).
    { unfold PyNum.of_nat. simpl (Z.of_nat 0). unfold Qdiv. rewrite Qmult_0_l. reflexivity. }
    split; [rewrite (round1_comp _ _ E); reflexivity|].
    destruct (Qlt_le_dec _ 95) as [_|G]; [|exfalso; lra].
    destruct (Qlt_le_dec _ 70) as [_|G]; [done|exfalso; lra].
Qed.

End Status.


Lemma group_add_keys (i : issue) (groups : list (string * list issue)) :
  (wcag_criterion i ∈ criteria groups -> criteria (group_add i groups) = criteria groups)
  ∧ (wcag_criterion i ∉ criteria groups ->
     criteria (group_add i groups) = criteria groups ++ [wcag_criterion i]).
Proof.
  unfold criteria. induction groups as [|[c ms] groups [IH1 IH2]].
  - split; [intros H; by apply elem_of_nil in H|done].
  - cbn [group_add]. destruct (String.eqb c (wcag_criterion i)) eqn:Hc.
    + apply String.eqb_eq in Hc. subst c. rewrite !fmap_cons. split; [done|].
      intros H. exfalso. apply H. by left.
    + apply String.eqb_neq in Hc. rewrite !fmap_cons. cbn [fst]. split.
      * intros [H|H]%elem_of_cons; [congruence|]. by rewrite IH1.
      * intros H. rewrite IH2; [done|]. intros H'. apply H. by right.
Qed.

Lemma elem_of_criteria c ms groups : (c, ms) ∈ groups -> c ∈ criteria groups.
Proof. intros H. unfold criteria. apply list_elem_of_fmap. by exists (c, ms). Qed.

Lemma group_add_members i groups c ms :
  NoDup (criteria groups) ->
  (c, ms) ∈ group_add i groups ->
  (c ≠ wcag_criterion i ∧ (c, ms) ∈ groups)
  ∨ (c = wcag_criterion i
     ∧ ∃ old, ms = old ++ [i]
              ∧ ((c, old) ∈ groups ∨ (old = [] ∧ c ∉ criteria groups))).
Proof.
  induction groups as [|[c' ms'] groups IH]; simpl; intros Hnd.
  - intros [= -> ->]%list_elem_of_singleton. right. split; [done|].
    exists []. split; [done|]. right. split; [done|]. apply not_elem_of_nil.
  - apply NoDup_cons in Hnd as [Hfresh Hnd]. fold (criteria groups) in Hfresh, Hnd.
    destruct (String.eqb c' (wcag_criterion i)) eqn:Hc.
    + apply String.eqb_eq in Hc. subst c'.
      intros [[= -> ->]|Hin]%elem_of_cons.
      * right. split; [done|]. exists ms'. split; [done|]. left. by left.
      * left. split; [|by right]. intros ->. apply Hfresh. by eapply elem_of_criteria.
    + apply String.eqb_neq in Hc.
      intros [[= -> ->]|Hin]%elem_of_cons.
      * left. split; [done|]. by left.
      * apply (IH Hnd) in Hin as [[Hne Hin]|[-> (old & -> & [Hin|[-> Hout]])]].
        -- left. split; [done|]. by right.
        -- right. split; [done|]. exists old. split; [done|]. left. by right.
        -- right. split; [done|]. exists []. split; [done|]. right. split; [done|].
           intros [?|?]%elem_of_cons; [congruence|done].
Qed.

Lemma group_add_length i groups :
  length (concat (snd <$> group_add i groups)) = S (length (concat (snd <$> groups))).
Proof.
  induction groups as [|[c ms] groups IH]; [done|].
  cbn [group_add]. destruct (String.eqb c (wcag_criterion i));
    rewrite !fmap_cons; cbn [snd concat]; rewrite !length_app; [simpl; lia|].
  rewrite IH. lia.
Qed.

Lemma filter_none {A} (P : A -> Prop) `{∀ x, Decision (P x)} (l : list A) :
  (∀ x, x ∈ l -> ¬ P x) -> filter P l = [].
Proof.
  induction l as [|x l IH]; intros Hl; [done|].
  rewrite filter_cons. destruct (decide (P x)) as [Hp|_].
  - exfalso. by apply (Hl x); [left|].
  - apply IH. intros y Hy. apply Hl. by right.
Qed.

Lemma group_add_grouped seen groups i :
  grouped seen groups -> grouped (seen ++ [i]) (group_add i groups).
Proof.
  intros [Hnd Hm Hk Hl]. split.
  - destruct (group_add_keys i groups) as [K1 K2].
    destruct (decide (wcag_criterion i ∈ criteria groups)) as [Hin|Hout].
    + by rewrite K1.
    + rewrite K2 by done.
      apply NoDup_app. split; [done|]. split; [|apply NoDup_singleton].
      intros x Hx ->%list_elem_of_singleton. done.
  - intros c ms Hin. rewrite filter_app, filter_cons, filter_nil.
    apply (group_add_members i groups c ms Hnd) in Hin
      as [[Hne Hin]|[-> (old & -> & [Hin|[-> Hout]])]].
    + destruct (Hm c ms Hin) as [Hn Hf]. destruct (decide _) as [?|_]; [congruence|].
      rewrite app_nil_r. done.
    + destruct (Hm _ old Hin) as [Hn Hf]. destruct (decide _) as [_|?]; [|done].
      split; [by intros [? _]%app_eq_nil|]. by rewrite <- Hf.
    + destruct (decide _) as [_|?]; [|done]. split; [done|].
      rewrite filter_none; [done|]. intros x Hx Hc. apply Hout. rewrite <- Hc. by apply Hk.
  - destruct (group_add_keys i groups) as [K1 K2].
    intros x [Hx| ->%list_elem_of_singleton]%elem_of_app;
      destruct (decide (wcag_criterion i ∈ criteria groups)) as [Hin|Hout];
      rewrite ?K1, ?K2 by done; try done.
    + by apply Hk.
    + apply elem_of_app. left. by apply Hk.
    + apply elem_of_app. right. by left.
  - rewrite group_add_length, length_app, Hl. simpl. lia.
Qed.

Lemma fold_group_add_grouped rest seen groups :
  grouped seen groups ->
  grouped (seen ++ rest) (fold_left (fun groups i => group_add i groups) rest groups).
Proof.
  revert seen groups. induction rest as [|i rest IH]; intros seen groups H; simpl.
  - by rewrite app_nil_r.
  - replace (seen ++ i :: rest) with ((seen ++ [i]) ++ rest) by (by rewrite <- app_assoc).
    by apply IH, group_add_grouped.
Qed.

(** X19. The grouping [by_criterion] of a report: no criterion occurs
    twice as a key, the group of a criterion is not empty and holds exactly
    the issues of this criterion in their order, the criterion of every
    issue is a key, and the groups together hold as many issues as there
    are. *)
Theorem by_criterion_groups issues :
  NoDup (fst <$> by_criterion issues)
  ∧ (∀ c ms, (c, ms) ∈ by_criterion issues ->
       ms ≠ [] ∧ ms = filter (fun i => wcag_criterion i = c) issues)
  ∧ (∀ i, i ∈ issues -> wcag_criterion i ∈ (fst <$> by_criterion issues))
  ∧ length (concat (snd <$> by_criterion issues)) = length issues.
Proof.
  assert (H0 : grouped [] []).
  { split; simpl; try done.
    - constructor.
    - intros c ms H. by apply elem_of_nil in H.
    - intros i H. by apply elem_of_nil in H. }
  destruct (fold_group_add_grouped issues [] [] H0) as [Hnd Hm Hk Hl].
  simpl in *. done.
Qed.


Lemma truthy_false s : PyStr.truthy s = false <-> s = "".
Proof.
  unfold PyStr.truthy. rewrite negb_false_iff. apply String.eqb_eq.
Qed.

Lemma truthy_true s : PyStr.truthy s = true <-> s ≠ "".
Proof.
  unfold PyStr.truthy. rewrite negb_true_iff. apply String.eqb_neq.
Qed.

Lemma no_alt_get_or e : PyStr.truthy (Dom.get_or e "alt" "") = false <-> no_alt e.
Proof.
  rewrite truthy_false. unfold no_alt, Dom.get_or, Dom.get.
  destruct (Dom.attrs e !! "alt") as [a|]; simpl.
  - split; [intros ->; by right|intros [H|[= ->]]; done].
  - split; [by left|done].
Qed.

(** X20. The verdicts on the other elements. An image input and an [area]
    each give exactly one check: a critical 1.1.1 issue when [alt] is
    absent or empty, a pass otherwise. A [figure] gives at most one: an
    issue when it has an image and no caption, a pass when it has a
    caption. An [svg] that is hidden ([aria-hidden] true or role
    presentation) is not checked; otherwise it is free of issues exactly
    when it has the role [img] and a name ([aria-label] or [title]), it
    passes exactly when it has a name, and it gets at most two issues. *)
Theorem embedded_elements_verdicts :
  (∀ inp, length (_check_input_image inp).1 + length (_check_input_image inp).2 = 1
          ∧ ((_check_input_image inp).2 = [] <-> no_alt inp)
          ∧ Forall (fun i => severity i = "critical" ∧ wcag_criterion i = "1.1.1")
                   (_check_input_image inp).1)
  ∧ (∀ area, length (_check_area_element area).1 + length (_check_area_element area).2 = 1
             ∧ ((_check_area_element area).2 = [] <-> no_alt area)
             ∧ Forall (fun i => severity i = "critical" ∧ wcag_criterion i = "1.1.1")
                      (_check_area_element area).1)
  ∧ (∀ figure,
       length (_check_figure_element figure).1 + length (_check_figure_element figure).2 ≤ 1
       ∧ ((_check_figure_element figure).1 ≠ []
          <-> Dom.figure_img figure = true ∧ Dom.figcaption figure = false)
       ∧ ((_check_figure_element figure).2 ≠ [] <-> Dom.figcaption figure = true))
  ∧ (∀ svg,
       (svg_hidden svg -> svg_issues (_check_svg_element svg) = []
                          ∧ svg_passes (_check_svg_element svg) = [])
       ∧ (svg_issues (_check_svg_element svg) = []
          <-> svg_hidden svg
              ∨ (Dom.get_or (Dom.svg_tag svg) "role" "" = "img" ∧ svg_named svg))
       ∧ (svg_passes (_check_svg_element svg) ≠ [] <-> ¬ svg_hidden svg ∧ svg_named svg)
       ∧ length (svg_issues (_check_svg_element svg)) ≤ 2).
Proof.
  split; [|split; [|split]].
  - intros inp. unfold _check_input_image. cbv zeta.
    pose proof (no_alt_get_or inp) as Hn.
    destruct (PyStr.truthy (Dom.get_or inp "alt" "")); simpl.
    + split; [done|]. split; [|constructor].
      split; [done|]. intros H. apply Hn in H. discriminate H.
    + split; [done|]. split; [|by repeat constructor].
      split; [intros _; by apply Hn|done].
  - intros area. unfold _check_area_element. cbv zeta.
    pose proof (no_alt_get_or area) as Hn.
    destruct (PyStr.truthy (Dom.get_or area "alt" "")); simpl.
    + split; [done|]. split; [|constructor].
      split; [done|]. intros H. apply Hn in H. discriminate H.
    + split; [done|]. split; [|by repeat constructor].
      split; [intros _; by apply Hn|done].
  - intros figure. unfold _check_figure_element.
    destruct (Dom.figure_img figure), (Dom.figcaption figure); simpl;
      (split; [lia|]); split; split; try done; try (intros [? ?]; done).
  - intros svg. unfold svg_hidden, svg_named, _check_svg_element. cbv zeta.
    set (role := Dom.get_or (Dom.svg_tag svg) "role" "").
    set (label := Dom.get_or (Dom.svg_tag svg) "aria-label" "").
    set (hidden := Dom.get_or (Dom.svg_tag svg) "aria-hidden" "").
    pose proof (String.eqb_spec hidden "true") as Hh.
    pose proof (String.eqb_spec role "presentation") as Hp.
    pose proof (String.eqb_spec role "img") as Hi.
    pose proof (truthy_true label) as Hl.
    destruct Hh as [Hh|Hh], Hp as [Hp|Hp], Hi as [Hi|Hi];
      destruct (PyStr.truthy label), (Dom.svg_title svg); simpl;
      repeat split; try done; try lia; try tauto; try (intros; by left);
      try (intros; by right); try (intros; left; by left); try (intros; left; by right);
      try (intros [[?|?]|[? [?|?]]]; try done; try congruence; exfalso; tauto);
      try (intros; right; split; [done|]; first [left; tauto|by right]);
      try (intros [? ?]; exfalso; tauto);
      try (intros _; split; [tauto|]; first [left; tauto|by right]);
      try (intros [_ [?|?]]; try done; exfalso; tauto);
      try (intro; exfalso; intuition congruence).
Qed.

Lemma page_level_shape soup :
  ∃ i1 i2 i3 (b c : bool),
    _check_page_level soup
    = (if Dom.find_skip_link soup then [] else [i1])
      ++ (if b then [i2] else []) ++ (if c then [i3] else [])
    ∧ (wcag_criterion i1 = "2.4.1" ∧ severity i1 = "minor")
    ∧ (wcag_criterion i2 = "3.1.1" ∧ severity i2 = "major")
    ∧ (wcag_criterion i3 = "1.4.4" ∧ severity i3 = "major")
    ∧ (b = false
       <-> ∀ html, Dom.find_html soup = Some html ->
                   ∃ lang, Dom.get html "lang" = Some lang ∧ lang ≠ "")
    ∧ (c = false
       <-> ∀ viewport, Dom.find_meta_viewport soup = Some viewport ->
             PyStr.contains "maximum-scale=1" (Dom.get_or viewport "content" "") = false
             ∧ PyStr.contains "user-scalable=no" (Dom.get_or viewport "content" "") = false).
Proof.
  unfold _check_page_level. cbv zeta.
  match goal with
  | |- context [if negb _ then [] ++ [?i] else []] => exists i
  end.
  match goal with
  | |- context [if negb (from_option _ _ _) then _ ++ [?i] else _] => exists i
  end.
  match goal with
  | |- context [if PyStr.contains _ _ || _ then _ ++ [?i] else _] => exists i
  end.
  exists (match Dom.find_html soup with
          | Some html => negb (from_option PyStr.truthy false (Dom.get html "lang"))
          | None => false
          end).
  exists (match Dom.find_meta_viewport soup with
          | Some viewport =>
              PyStr.contains "maximum-scale=1" (Dom.get_or viewport "content" "")
              || PyStr.contains "user-scalable=no" (Dom.get_or viewport "content" "")
          | None => false
          end).
  split; [|split; [done|]; split; [done|]; split; [done|]; split].
  - destruct (Dom.find_skip_link soup); destruct (Dom.find_html soup) as [html|];
      try destruct (negb (from_option _ _ _));
      destruct (Dom.find_meta_viewport soup) as [viewport|];
      try destruct (_ || _); reflexivity.
  - destruct (Dom.find_html soup) as [html|]; [|split; [intros _ h Hh; discriminate Hh|done]].
    rewrite negb_false_iff. destruct (Dom.get html "lang") as [lang|] eqn:Hlang; simpl.
    + rewrite truthy_true. split.
      * intros Hne h [= <-]. by exists lang.
      * intros H. destruct (H html eq_refl) as (l & Hl & Hne). congruence.
    + split; [discriminate|]. intros H. destruct (H html eq_refl) as (l & Hl & _).
      congruence.
  - destruct (Dom.find_meta_viewport soup) as [viewport|];
      [|split; [intros _ v Hv; discriminate Hv|done]].
    rewrite orb_false_iff. split.
    + intros H v [= <-]. exact H.
    + intros H. exact (H viewport eq_refl).
Qed.

(** X21. [_check_page_level] finds at most three issues, none of them
    critical and each of criterion 2.4.1, 3.1.1 or 1.4.4; it finds none
    exactly when the page has a skip link, its [html] tag (if any) has a
    non-empty [lang], and its viewport meta (if any) contains neither
    [maximum-scale=1] nor [user-scalable=no]. *)
Theorem page_level_clean soup :
  length (_check_page_level soup) ≤ 3
  ∧ (_check_page_level soup = []
     <-> Dom.find_skip_link soup = true
         ∧ (∀ html, Dom.find_html soup = Some html ->
                    ∃ lang, Dom.get html "lang" = Some lang ∧ lang ≠ "")
         ∧ (∀ viewport, Dom.find_meta_viewport soup = Some viewport ->
              PyStr.contains "maximum-scale=1" (Dom.get_or viewport "content" "") = false
              ∧ PyStr.contains "user-scalable=no" (Dom.get_or viewport "content" "") = false))
  ∧ (∀ i, i ∈ _check_page_level soup ->
          wcag_criterion i ∈ ["2.4.1"; "3.1.1"; "1.4.4"] ∧ severity i ≠ "critical").
Proof.
  destruct (page_level_shape soup)
    as (i1 & i2 & i3 & b & c & -> & [Hc1 Hs1] & [Hc2 Hs2] & [Hc3 Hs3] & Hb & Hc).
  rewrite <- Hb, <- Hc.
  split; [|split].
  - destruct (Dom.find_skip_link soup), b, c; simpl; lia.
  - destruct (Dom.find_skip_link soup), b, c; simpl; split; try done;
      intros (? & ? & ?); done.
  - intros i Hi.
    assert (Hcases : i = i1 ∨ i = i2 ∨ i = i3).
    { destruct (Dom.find_skip_link soup), b, c; simpl in Hi;
        repeat (apply elem_of_cons in Hi as [-> | Hi]; [tauto|]);
        by apply elem_of_nil in Hi. }
    destruct Hcases as [-> | [-> | ->]]; split; try congruence.
    + rewrite Hc1. repeat constructor.
    + rewrite Hc2. repeat constructor.
    + rewrite Hc3. repeat constructor.
Qed.

(** X22. [_generate_recommendations] gives at most five recommendations;
    the advice to run a full audit is among them exactly when the score is
    below 50 and the praise of a strong foundation exactly when it is 90 or
    more, so never both; without issues the list is one of these two
    alone, or empty. *)
Theorem recommendations_shape issues score :
  length (_generate_recommendations issues score) ≤ 5
  ∧ ¬ (audit_note ∈ _generate_recommendations issues score
       ∧ foundation_note ∈ _generate_recommendations issues score)
  ∧ (audit_note ∈ _generate_recommendations issues score <-> (score < 50)%Q)
  ∧ (foundation_note ∈ _generate_recommendations issues score <-> (90 <= score)%Q)
  ∧ (issues = [] ->
     _generate_recommendations issues score
     = if Qlt_le_dec score 50 then [audit_note]
       else if Qlt_le_dec score 90 then [] else [foundation_note]).
Proof.
  assert (Hmem :
    (audit_note ∈ _generate_recommendations issues score <-> (score < 50)%Q)
    ∧ (foundation_note ∈ _generate_recommendations issues score <-> (90 <= score)%Q)
    ∧ (length (_generate_recommendations issues score) ≤ 5)).
  { unfold _generate_recommendations, audit_note, foundation_note. cbv zeta.
    destruct (0 <? count_severity "critical" issues);
      destruct (0 <? count_severity "major" issues);
      destruct (Qlt_le_dec score 50) as [H50|H50];
      destruct (Qlt_le_dec score 90) as [H90|H90];
      try (exfalso; lra);
      destruct (PyStr.in_list "1.1.1" (wcag_criterion <$> issues));
      destruct (PyStr.in_list "4.1.2" (wcag_criterion <$> issues));
      cbn [app length]; (split; [|split; [|lia]]); split;
      try (intros _; first [exact H50 | exact H90 | lra]);
      try (intros _; rewrite !elem_of_cons; tauto);
      rewrite ?RegexFacts.append_cons;
      try (intros Hin; exfalso;
           repeat (apply elem_of_cons in Hin as [Hin|Hin]; [discriminate Hin|]);
           by apply elem_of_nil in Hin);
      try (intros Hc; exfalso; lra). }
  destruct Hmem as (Ha & Hf & Hlen).
  split; [exact Hlen|]. split; [rewrite Ha, Hf; lra|]. split; [exact Ha|]. split; [exact Hf|].
  intros ->. unfold _generate_recommendations, audit_note, foundation_note. cbv zeta.
  simpl. destruct (Qlt_le_dec score 50) as [H50|H50];
    destruct (Qlt_le_dec score 90) as [H90|H90]; try reflexivity. exfalso; lra.
Qed.

End ReportFacts.

(** * The batch check *)

Module BatchFacts.

Import WcagChecker WcagBatch WcagSpec ReportFacts.

Section Services.
Variable client_get : string -> py_result response.
Variable findall_url : string -> list string.





End Services.

End BatchFacts.

(** * The routes *)

Module RouteFacts.

Import Routes.

Section Services.
Variable urlparse : string -> py_result parsed_url.
Variable client_get : string -> py_result response.
Variable float_str : Q -> string.
Variable findall_url : string -> list string.



End Services.

End RouteFacts.

(** * The statements on the example sites *)

Module Instances.
Import CompetitorAnalysis Spec TraceSpec WcagChecker.

(** X5, on the shop. *)
Lemma site_totals_witness :
  ∃ r, analyze_competitor Examples.urlparse Examples.shop Examples.float_str
         "https://shop.example/" 10 = Ok r
    ∧ Site.images_missing_alt r + Site.images_poor_alt r + Site.images_good_alt r
      = Site.total_images r
    ∧ Site.pages_analyzed r = length (Site.page_details r)
    ∧ Site.pages_analyzed r ≤ Z.to_nat 10
    ∧ Site.total_images r = sum_of Page.total_images (Site.page_details r)
    ∧ Site.images_good_alt r = sum_of Page.images_good_alt (Site.page_details r)
    ∧ Site.images_good_alt r ≤ Site.total_images r.
Proof.
  destruct (analyze_competitor Examples.urlparse Examples.shop Examples.float_str
              "https://shop.example/" 10) as [r|e] eqn:Hr; [|vm_compute in Hr; discriminate].
  exists r. split; [reflexivity|].
  exact (TraceFacts.site_totals Examples.urlparse Examples.shop Examples.float_str
           "https://shop.example/" 10 r Hr).
Defined.

(** X7, on the portal, whose pages have no image. *)
Lemma no_image_site_witness :
  ∃ r, analyze_competitor Examples.urlparse Examples.portal Examples.float_str
         "https://portal.example/" 2 = Ok r
    ∧ Site.total_images r = 0
    ∧ (Site.compliance_score r == 100)%Q
    ∧ Site.gaps r = []
    ∧ Opportunity.type <$> Site.opportunities r
      = ["seo_advantage"; "accessibility_leadership"; "image_search_ranking"].
Proof.
  destruct (analyze_competitor Examples.urlparse Examples.portal Examples.float_str
              "https://portal.example/" 2) as [r|e] eqn:Hr; [|vm_compute in Hr; discriminate].
  assert (Hzero : Site.total_images r = 0).
  { assert (Ht : from_option Site.total_images 0
                   (match analyze_competitor Examples.urlparse Examples.portal
                            Examples.float_str "https://portal.example/" 2 with
                    | Ok r => Some r
                    | Raise _ => None
                    end) = 0) by (vm_compute; reflexivity).
    rewrite Hr in Ht. exact Ht. }
  exists r. split; [reflexivity|]. split; [exact Hzero|].
  exact (TraceFacts.no_image_site Examples.urlparse Examples.portal Examples.float_str
           "https://portal.example/" 2 r Hr Hzero).
Defined.

(** X6, on the shop. *)
Lemma pages_are_fetched_pages_witness :
  ∃ r, analyze_competitor Examples.urlparse Examples.shop Examples.float_str
         "https://shop.example/" 10 = Ok r
    ∧ NoDup (Page.url <$> Site.page_details r)
    ∧ Forall (page_of_response Examples.shop) (Site.page_details r)
    ∧ Forall (on_site (Site.competitor_domain r) "https://shop.example/")
             (Page.url <$> Site.page_details r).
Proof.
  destruct (analyze_competitor Examples.urlparse Examples.shop Examples.float_str
              "https://shop.example/" 10) as [r|e] eqn:Hr; [|vm_compute in Hr; discriminate].
  exists r. split; [reflexivity|].
  exact (TraceFacts.pages_are_fetched_pages Examples.urlparse Examples.shop Examples.float_str
           "https://shop.example/" 10 r Hr).
Defined.


(** X9, on a host that does not answer. *)
Lemma unreachable_seed_witness :
  ∃ r, analyze_competitor Examples.urlparse Examples.shop Examples.float_str
         "https://down.example/" 5 = Ok r
    ∧ Site.page_details r = []
    ∧ Site.pages_analyzed r = 0
    ∧ Site.total_images r = 0
    ∧ (Site.compliance_score r == 100)%Q.
Proof.
  apply (TraceFacts.unreachable_seed Examples.urlparse Examples.shop Examples.float_str
           "https://down.example/" 5 {| scheme := "https"; netloc := "down.example" |}).
  - vm_compute. reflexivity.
  - intros resp H. vm_compute in H. discriminate H.
Defined.

(** X13, on a page of two spacers. *)
Lemma decorative_only_page_witness :
  Page.images_good_alt
    (_analyze_page (text (Examples.page [MoreExamples.blank_spacer; MoreExamples.blank_spacer] []))
                   "https://shop.example/") = 2
  ∧ (good_ratio
       [_analyze_page (text (Examples.page [MoreExamples.blank_spacer; MoreExamples.blank_spacer] []))
                      "https://shop.example/"] == 100)%Q
  ∧ Gap.severity
      <$> _identify_gaps
            [_analyze_page
               (text (Examples.page [MoreExamples.blank_spacer; MoreExamples.blank_spacer] []))
               "https://shop.example/"]
    = ["critical"].
Proof.
  destruct (GapFacts.decorative_only_page
              (text (Examples.page [MoreExamples.blank_spacer; MoreExamples.blank_spacer] []))
              "https://shop.example/") as (Hg & _ & Hr & _ & _ & Hs).
  - discriminate.
  - repeat constructor; vm_compute; reflexivity.
  - split; [|split; [exact Hr|exact Hs]].
    rewrite Hg. vm_compute. reflexivity.
Defined.

(** X16, on the shop. *)
Lemma report_counts_witness :
  ∃ r, check_url Examples.shop MoreExamples.no_urls "https://shop.example/" "AAA"
       = Ok (check_done r)
    ∧ Report.total_checks_performed r = Report.total_passes r + Report.total_issues r
    ∧ Report.critical_issues r + Report.major_issues r + Report.minor_issues r
      = Report.total_issues r
    ∧ length (Report.page_level_issues r) ≤ Report.total_issues r
    ∧ length (Report.image_results r) = Report.total_images r + Report.total_svgs r
    ∧ (0 <= Report.compliance_score r <= 100)%Q
    ∧ (Report.total_issues r = 0 -> (Report.compliance_score r == 100)%Q).
Proof.
  destruct (check_url Examples.shop MoreExamples.no_urls "https://shop.example/" "AAA")
    as [[e|r]|e] eqn:Hr;
    [vm_compute in Hr; discriminate| |vm_compute in Hr; discriminate].
  exists r. split; [reflexivity|].
  exact (ReportFacts.report_counts Examples.shop MoreExamples.no_urls "https://shop.example/" "AAA" r Hr).
Defined.

(** X17, on the shop. *)
Lemma status_thresholds_witness :
  ∃ r, check_url Examples.shop MoreExamples.no_urls "https://shop.example/" "AAA"
       = Ok (check_done r)
    ∧ (Report.status r = "compliant"
       <-> 19 * Report.total_issues r ≤ Report.total_passes r)
    ∧ (Report.status r = "partial"
       <-> Report.total_passes r < 19 * Report.total_issues r
           ∧ 7 * Report.total_issues r ≤ 3 * Report.total_passes r)
    ∧ (Report.status r = "non_compliant"
       <-> 3 * Report.total_passes r < 7 * Report.total_issues r).
Proof.
  destruct (check_url Examples.shop MoreExamples.no_urls "https://shop.example/" "AAA")
    as [[e|r]|e] eqn:Hr;
    [vm_compute in Hr; discriminate| |vm_compute in Hr; discriminate].
  exists r. split; [reflexivity|].
  exact (ReportFacts.status_thresholds Examples.shop MoreExamples.no_urls "https://shop.example/" "AAA" r Hr).
Defined.

(** X18, on the front page of the portal, which has no skip link. *)
Lemma page_without_elements_witness :
  ∃ r, check_url Examples.portal MoreExamples.no_urls "https://portal.example/" "AAA"
       = Ok (check_done r)
    ∧ Report.total_passes r = 0
    ∧ Report.total_issues r = 1
    ∧ (Report.compliance_score r == 0)%Q
    ∧ Report.status r = "non_compliant".
Proof.
  destruct (ReportFacts.page_without_elements Examples.portal MoreExamples.no_urls
              "https://portal.example/" "AAA" (Examples.page [] ["/a"; "/b"; "/c"]))
    as (r & Hr & Hp & Hi & _ & Hbad); try reflexivity.
  exists r. split; [exact Hr|]. split; [exact Hp|]. split; [exact Hi|].
  apply Hbad. discriminate.
Defined.

(** X3, on an image named by its file. *)
Lemma poor_alt_is_flagged_witness :
  compliant (_check_img_element MoreExamples.named_by_file "AAA") = false
  ∧ ∃ i rest,
      img_issues (_check_img_element MoreExamples.named_by_file "AAA") = i :: rest
      ∧ wcag_criterion i = "1.1.1"
      ∧ (severity i = "critical" ∨ severity i = "major").
Proof.
  apply (AltFacts.poor_alt_is_flagged MoreExamples.named_by_file "AAA" "photo.jpg" "/p.jpg").
  - vm_compute. reflexivity.
  - vm_compute. reflexivity.
Defined.

End Instances.
